(** * Participant verification scripts: a shallow embedding

    The development embeds the two batch scripts of the repository,
    [verify_all_participants.py] and [verify_final_data.py], and states
    the properties of their reconciliation logic.

    Conventions of the embedding.
    - A Python [str] is a list of characters ([list ascii]).  The
      character classes below are those of Python on ASCII text: the
      model is faithful for text whose code points are below 128, and
      treats the remaining byte values as caseless, non-space symbols;
      only [isdigit] reads them as Latin-1, where the superscripts
      two, three and one are digits for [str.isdigit] and not for
      [int].  A statement that needs its text to be ASCII says so.
    - A Python [int] is a [Z].
    - A raised exception is the [Raise] case of [result]; code that
      cannot raise is a plain function.
    - A sheet is a [frame] of column labels and rows of cells; a
      [row] holds the cells that one iteration of the comparison
      reads from a sheet of five columns or more.  Cells that hold a
      floating-point number other than NaN are not modelled.
    - A [dict] keyed by badge number is a [gmap Z _].
    - [print] calls are recorded as a list of [line] values, one
      constructor per print site that the properties mention. *)

From Stdlib Require Import ZArith List Ascii String Lia Bool.
From stdpp Require Import base decidable option list gmap sorting pretty.

Open Scope Z_scope.

(* ===================================================================== *)
(** * Python values and built-ins used by the scripts *)
(* ===================================================================== *)

Module Py.

Abbreviation str := (list ascii).

(** A string literal of the source. *)
Definition lit (s : string) : str := list_ascii_of_string s.
Arguments lit : simpl never.

Inductive exn : Type :=
| ValueError
| TypeError
| IndexError
| OSError.

Inductive result (A : Type) : Type :=
| Ok (a : A)
| Raise (e : exn).
Arguments Ok {A} a.
Arguments Raise {A} e.

#[global] Instance result_ret : MRet result := fun A a => Ok a.
#[global] Instance result_bind : MBind result := fun A B k r =>
  match r with
  | Ok a => k a
  | Raise e => Raise e
  end.

Definition code (c : ascii) : N := N_of_ascii c.

Definition in_range (lo hi : N) (c : ascii) : bool :=
  ((lo <=? code c) && (code c <=? hi))%N.

(** [str.isspace] on one character: TAB..CR, FS..US and SPACE. *)
Definition isspace (c : ascii) : bool :=
  in_range 9 13 c || in_range 28 31 c || in_range 32 32 c.

(** The whitespace skipped by [int()] on ASCII text ([Py_ISSPACE]):
    TAB..CR and SPACE, but not FS..US. *)
Definition c_isspace (c : ascii) : bool :=
  in_range 9 13 c || in_range 32 32 c.

Definition lower_char (c : ascii) : ascii :=
  if in_range 65 90 c then ascii_of_N (code c + 32) else c.

Definition upper_char (c : ascii) : ascii :=
  if in_range 97 122 c then ascii_of_N (code c - 32) else c.

(** [s.lower()] and [s.upper()] *)
Definition lower (s : str) : str := map lower_char s.
Definition upper (s : str) : str := map upper_char s.

Fixpoint lstrip_by (sp : ascii -> bool) (s : str) : str :=
  match s with
  | [] => []
  | c :: s' => if sp c then lstrip_by sp s' else s
  end.

Fixpoint rstrip_by (sp : ascii -> bool) (s : str) : str :=
  match s with
  | [] => []
  | c :: s' =>
      match rstrip_by sp s' with
      | [] => if sp c then [] else [c]
      | t => c :: t
      end
  end.

Definition strip_by (sp : ascii -> bool) (s : str) : str :=
  rstrip_by sp (lstrip_by sp s).

(** [s.strip()] *)
Definition strip (s : str) : str := strip_by isspace s.

Definition eqc (a b : ascii) : bool := Ascii.eqb a b.

(** [s.startswith(p)] *)
Fixpoint startswith (p s : str) : bool :=
  match p, s with
  | [], _ => true
  | _ :: _, [] => false
  | a :: p', b :: s' => eqc a b && startswith p' s'
  end.

(** [sub in s] *)
Fixpoint contains (sub s : str) : bool :=
  startswith sub s ||
  match s with
  | [] => false
  | _ :: s' => contains sub s'
  end.

(** [s.replace(old, new)] for a non-empty [old] (every call of the
    source passes a non-empty literal): occurrences are found from
    the left and do not overlap.  [skip] counts the characters of a
    matched occurrence that are still to be dropped. *)
Fixpoint replace_from (old new : str) (skip : nat) (s : str) : str :=
  match s with
  | [] => []
  | c :: s' =>
      match skip with
      | S k => replace_from old new k s'
      | O =>
          if startswith old s
          then new ++ replace_from old new (Nat.pred (length old)) s'
          else c :: replace_from old new O s'
      end
  end.

Definition replace (old new s : str) : str := replace_from old new O s.

(** [s.count(c)] for a one-character [c] *)
Definition count_char (c : ascii) (s : str) : nat :=
  length (filter (fun x => eqc c x = true) s).

(** [s[-n:]] *)
Definition last_n (n : nat) (s : str) : str := drop (length s - n)%nat s.

(** A decimal digit, as [int] reads it. *)
Definition is_digit (c : ascii) : bool := in_range 48 57 c.

(** [c.isdigit()]: the decimal digits and, with the values 128..255
    read as Latin-1, the superscripts two, three and one, which are
    digits for [str.isdigit] but which [int] rejects. *)
Definition isdigit_char (c : ascii) : bool :=
  is_digit c || in_range 178 179 c || in_range 185 185 c.

(** [s.isdigit()] *)
Definition isdigit (s : str) : bool :=
  match s with
  | [] => false
  | _ => forallb isdigit_char s
  end.

(** [s.split(sep)[0]] for a one-character separator *)
Fixpoint split_head (sep : ascii) (s : str) : str :=
  match s with
  | [] => []
  | c :: s' => if eqc sep c then [] else c :: split_head sep s'
  end.

(** [str(n)] for an [int] *)
Definition str_of_int (n : Z) : str := list_ascii_of_string (pretty n).

(** ** [int(s)] for a [str]

    Surrounding whitespace is skipped, one sign is accepted, and the
    rest must be decimal digits, where single underscores may stand
    between two digits.  Anything else raises [ValueError], as does a
    literal of more than [int_max_str_digits] digits. *)

Definition digit_val (c : ascii) : option Z :=
  if is_digit c then Some (Z.of_N (code c) - 48) else None.

Definition underscore : ascii := "_"%char.

Fixpoint parse_digits (acc : Z) (after_us : bool) (s : str) : option Z :=
  match s with
  | [] => if after_us then None else Some acc
  | c :: s' =>
      if eqc c underscore
      then (if after_us then None else parse_digits acc true s')
      else match digit_val c with
           | Some d => parse_digits (10 * acc + d) false s'
           | None => None
           end
  end.

Definition parse_nat (s : str) : option Z :=
  match s with
  | [] => None
  | c :: s' =>
      match digit_val c with
      | Some d => parse_digits d false s'
      | None => None
      end
  end.

Definition int_max_str_digits : nat := 4300.

Definition digit_count (s : str) : nat :=
  length (filter (fun c => is_digit c = true) s).

Definition parse_int (s : str) : option Z :=
  match s with
  | c :: s' =>
      if eqc c "-"%char then Z.opp <$> parse_nat s'
      else if eqc c "+"%char then parse_nat s'
      else parse_nat s
  | [] => None
  end.

Definition int_of_str (s : str) : result Z :=
  let body := strip_by c_isspace s in
  if (int_max_str_digits <? digit_count body)%nat then Raise ValueError
  else match parse_int body with
       | Some n => Ok n
       | None => Raise ValueError
       end.

End Py.

Import Py.

(* ===================================================================== *)
(** * Records loaded from the database *)
(* ===================================================================== *)

(** The [age] column as the driver returns it: an [int], or text. *)
Inductive age_value : Type :=
| AgeInt (n : Z)
| AgeStr (s : str).

(** One row of [SELECT id, uuid, name, mobile, qrToken,
    emergencyContact, photoUri, bloodGroup, age FROM participants];
    [None] is SQL NULL. *)
Record participant : Type := Participant {
  p_id : Z;
  p_uuid : option str;
  p_name : option str;
  p_mobile : option str;
  p_qrToken : option str;
  p_emergencyContact : option str;
  p_photoUri : option str;
  p_bloodGroup : option str;
  p_age : option age_value
}.

(** Truthiness of an optional string: [None] and [''] are false. *)
Definition truthy (v : option str) : bool :=
  match v with
  | Some (_ :: _) => true
  | _ => false
  end.

Definition PREFIX : str := lit "PALITANA_YATRA_".

(** [extract_badge_number], identical in both scripts. *)
Definition extract_badge_number (qr_token : option str) : result (option Z) :=
  match qr_token with
  | Some tok =>
      if truthy qr_token && contains PREFIX tok
      then n ← int_of_str (replace PREFIX [] tok); Ok (Some n)
      else Ok None
  | None => Ok None
  end.

(** The index loop shared by both scripts:
    [for p in participants: badge = extract_badge_number(p['qrToken']);
     if badge: by_badge[badge] = p].  The test [if badge] is false for
    [None] and for [0]. *)
Definition truthy_int (b : option Z) : bool :=
  match b with
  | Some n => negb (n =? 0)
  | None => false
  end.

Definition index_step (by_badge : gmap Z participant) (p : participant)
  : result (gmap Z participant) :=
  badge ← extract_badge_number (p_qrToken p);
  match badge with
  | Some b => if truthy_int badge then Ok (<[b := p]> by_badge) else Ok by_badge
  | None => Ok by_badge
  end.

Fixpoint index_from (by_badge : gmap Z participant) (ps : list participant)
  : result (gmap Z participant) :=
  match ps with
  | [] => Ok by_badge
  | p :: ps' => m ← index_step by_badge p; index_from m ps'
  end.

Definition index_by_badge (ps : list participant) : result (gmap Z participant) :=
  index_from ∅ ps.

(** [badge in by_badge] *)
Definition has_badge (by_badge : gmap Z participant) (badge : Z) : bool :=
  match by_badge !! badge with
  | Some _ => true
  | None => false
  end.

(** [range(1, 418)] *)
Definition cohort : list Z := seqZ 1 417.

(** [x in l] for a list of integers *)
Definition mem (x : Z) (l : list Z) : bool := existsb (Z.eqb x) l.

(** ** Console and file effects

    A program emits events (printed lines, a written document) and
    ends normally or with an exception. *)
Definition prog (E A : Type) : Type := list E * result A.

#[global] Instance prog_ret {E} : MRet (prog E) := fun A a => ([], Ok a).
#[global] Instance prog_bind {E} : MBind (prog E) := fun A B k m =>
  match m with
  | (out, Ok a) => let '(out', r) := k a in (out ++ out', r)
  | (out, Raise e) => (out, Raise e)
  end.

Definition raise {E A} (e : exn) : prog E A := ([], Raise e).
Definition emit {E} (x : E) : prog E unit := ([x], Ok tt).
Definition lift {E A} (r : result A) : prog E A := ([], r).

Fixpoint for_each {E A} (f : A -> prog E unit) (l : list A) : prog E unit :=
  match l with
  | [] => mret tt
  | x :: l' => f x;; for_each f l'
  end.

Definition when {E} (b : bool) (m : prog E unit) : prog E unit :=
  if b then m else mret tt.

Definition events {E A} (m : prog E A) : list E := fst m.
Definition outcome {E A} (m : prog E A) : result A := snd m.

Definition is_empty {A} (l : list A) : bool :=
  match l with
  | [] => true
  | _ :: _ => false
  end.

(** [str(v)] for a nullable text column *)
Definition str_of_opt (v : option str) : str :=
  match v with
  | Some s => s
  | None => lit "None"
  end.

(** [str(v)] and [int(v)] for an [age] value *)
Definition str_of_age (a : age_value) : str :=
  match a with
  | AgeInt n => str_of_int n
  | AgeStr s => s
  end.

Definition int_of_age (a : age_value) : result Z :=
  match a with
  | AgeInt n => Ok n
  | AgeStr s => int_of_str s
  end.

(** [', '.join(l)] and the like *)
Fixpoint join (sep : str) (l : list str) : str :=
  match l with
  | [] => []
  | [x] => x
  | x :: l' => x ++ sep ++ join sep l'
  end.

(* ===================================================================== *)
(** * verify_all_participants.py *)
(* ===================================================================== *)

Module VerifyAll.

(** ** [verify_qr_code_files]

    [qr_dir] is the state of the QR-code directory: [None] when it
    does not exist, otherwise the names matched by [glob('*.png')]
    in the order the listing yields them. *)
Definition file_badge (name : str) : result (option Z) :=
  let part0 := split_head "_"%char name in
  if isdigit part0 then n ← int_of_str part0; Ok (Some n) else Ok None.

Fixpoint file_badges_of (qr_files : list str) : result (list Z) :=
  match qr_files with
  | [] => Ok []
  | f :: fs =>
      b ← file_badge f;
      rest ← file_badges_of fs;
      Ok (match b with Some n => n :: rest | None => rest end)
  end.

Definition verify_qr_code_files (qr_dir : option (list str))
  : result (option (list Z) * option str) :=
  match qr_dir with
  | None => Ok (None, Some (lit "QR codes directory not found"))
  | Some qr_files =>
      file_badges ← file_badges_of qr_files;
      Ok (Some (merge_sort Z.le file_badges), None)
  end.

(** ** The checks of [main] *)

(** 1. badge numbers of the cohort that the index lacks *)
Definition missing_badges_of (by_badge : gmap Z participant) : list Z :=
  List.filter (fun i => negb (has_badge by_badge i)) cohort.

(** 2. [[i for i in range(1, 418) if i not in file_badges]] *)
Definition missing_files_of (file_badges : list Z) : list Z :=
  List.filter (fun i => negb (mem i file_badges)) cohort.

(** 3. completeness of one record *)
Definition missing_fields_of (p : participant) : list str :=
  (if negb (truthy (p_name p)) || is_empty (strip (str_of_opt (p_name p)))
   then [lit "name"] else []) ++
  (if negb (truthy (p_uuid p)) then [lit "uuid"] else []) ++
  (if negb (truthy (p_qrToken p)) then [lit "qrToken"] else []).

Definition finding : Type := Z * option str * list str.

Definition incomplete_of (by_badge : gmap Z participant) : list finding :=
  omap (fun badge =>
          match by_badge !! badge with
          | None => None
          | Some p =>
              let missing_fields := missing_fields_of p in
              if is_empty missing_fields then None
              else Some (badge, p_name p, missing_fields)
          end) cohort.

(** 4. validity of one record *)
Definition uuid_issues (uuid : option str) : list str :=
  match uuid with
  | Some u =>
      if negb (truthy uuid) || negb (length u =? 36)%nat
         || negb (count_char "-"%char u =? 4)%nat
      then [lit "invalid UUID: " ++ str_of_opt uuid] else []
  | None => [lit "invalid UUID: " ++ str_of_opt uuid]
  end.

Definition expected_token (badge : Z) : str := PREFIX ++ str_of_int badge.

Definition token_issues (badge : Z) (qrToken : option str) : list str :=
  if bool_decide (qrToken = Some (expected_token badge)) then []
  else [lit "wrong qrToken: expected " ++ expected_token badge
          ++ lit ", got " ++ str_of_opt qrToken].

Definition age_issues (age : option age_value) : list str :=
  match age with
  | None => []
  | Some a =>
      match int_of_age a with
      | Ok n =>
          if (n <? 1) || (n >? 120)
          then [lit "invalid age: " ++ str_of_int n] else []
      | Raise _ => [lit "non-numeric age: " ++ str_of_age a]
      end
  end.

Definition issues_of (badge : Z) (p : participant) : list str :=
  uuid_issues (p_uuid p) ++ token_issues badge (p_qrToken p)
    ++ age_issues (p_age p).

Definition invalid_of (by_badge : gmap Z participant) : list finding :=
  omap (fun badge =>
          match by_badge !! badge with
          | None => None
          | Some p =>
              let issues := issues_of badge p in
              if is_empty issues then None
              else Some (badge, p_name p, issues)
          end) cohort.

(** ** Output *)

Record report : Type := Report {
  total_participants : nat;
  missing_badges : list Z;
  incomplete_data : list finding;
  invalid_data : list finding;
  all_passed : bool
}.

Inductive line : Type :=
| Heading (title : string)
| TotalParticipants (n : nat)
| MissingBadgeNumbers (l : list Z)
| AllBadgesPresent
| Warning (msg : str)
| MissingFiles (l : list Z)
| AllFilesPresent (n : nat)
| IncompleteHeader
| IncompleteEntry (f : finding)
| AllComplete
| InvalidHeader
| InvalidEntry (f : finding)
| AllValid
| SampleName (badge : Z) (name : option str)
| SampleDetails (p : participant)
| SumBadgesMissing (n : nat)
| SumBadgesPresent
| SumFilesPresent
| SumFilesMissing
| SumIncomplete (n : nat)
| SumComplete
| SumInvalid (n : nat)
| SumValid
| AllVerificationsPassed
| SomeVerificationsFailed
| ReportSaved.

Inductive event : Type :=
| Print (l : line)
| WriteReport (r : report).

Definition print (l : line) : prog event unit := emit (Print l).

(** 5. one sample entry: the name line, then the [uuid] line, whose
    slices [p['uuid'][:8]] raise [TypeError] on [None], then the
    remaining lines. *)
Definition print_sample (by_badge : gmap Z participant) (badge : Z)
  : prog event unit :=
  match by_badge !! badge with
  | Some p =>
      print (SampleName badge (p_name p));;
      match p_uuid p with
      | Some _ => print (SampleDetails p)
      | None => raise TypeError
      end
  | None => mret tt
  end.

Definition files_truthy (file_badges : option (list Z)) : bool :=
  match file_badges with
  | Some (_ :: _) => true
  | _ => false
  end.

(** The "VERIFICATION SUMMARY" block; returns [all_passed]. *)
Definition summary (missing_badges : list Z) (file_badges : option (list Z))
    (incomplete invalid : list finding) : prog event bool :=
  let all_passed := true in
  all_passed ←
    (if negb (is_empty missing_badges)
     then print (SumBadgesMissing (length missing_badges));; mret false
     else print SumBadgesPresent;; mret all_passed);
  all_passed ←
    (if files_truthy file_badges
        && (length (missing_files_of (default [] file_badges)) =? 0)%nat
     then print SumFilesPresent;; mret all_passed
     else if files_truthy file_badges
     then print SumFilesMissing;; mret false
     else mret all_passed);
  all_passed ←
    (if negb (is_empty incomplete)
     then print (SumIncomplete (length incomplete));; mret false
     else print SumComplete;; mret all_passed);
  all_passed ←
    (if negb (is_empty invalid)
     then print (SumInvalid (length invalid));; mret false
     else print SumValid;; mret all_passed);
  print (if (all_passed : bool) then AllVerificationsPassed
         else SomeVerificationsFailed);;
  mret all_passed.

(** [with open(...) as f: json.dump(report, f)]: [can_write] tells
    whether the document can be written. *)
Definition save_report (can_write : bool) (r : report) : prog event unit :=
  if can_write then emit (WriteReport r) else raise OSError.

(** ** [main], by its numbered sections *)

Definition badge_phase (by_badge : gmap Z participant) : prog event unit :=
  print (Heading "1. BADGE NUMBER VERIFICATION");;
  let missing_badges := missing_badges_of by_badge in
  if negb (is_empty missing_badges)
  then print (MissingBadgeNumbers missing_badges)
  else print AllBadgesPresent.

(** Returns [file_badges]. *)
Definition file_phase (qr_dir : option (list str))
  : prog event (option (list Z)) :=
  print (Heading "2. QR CODE FILE VERIFICATION");;
  '(file_badges, error) ← lift (verify_qr_code_files qr_dir);
  (match error with
   | Some msg => print (Warning msg)
   | None =>
       match file_badges with
       | Some fb =>
           let missing_files := missing_files_of fb in
           if negb (is_empty missing_files)
           then print (MissingFiles missing_files)
           else print (AllFilesPresent (length fb))
       | None => raise TypeError
       end
   end);;
  mret file_badges.

Definition completeness_phase (by_badge : gmap Z participant) : prog event unit :=
  print (Heading "3. DATA COMPLETENESS VERIFICATION");;
  let incomplete := incomplete_of by_badge in
  if negb (is_empty incomplete)
  then print IncompleteHeader;;
       for_each (fun f => print (IncompleteEntry f)) incomplete
  else print AllComplete.

Definition validity_phase (by_badge : gmap Z participant) : prog event unit :=
  print (Heading "4. DATA VALIDITY VERIFICATION");;
  let invalid := invalid_of by_badge in
  if negb (is_empty invalid)
  then print InvalidHeader;;
       for_each (fun f => print (InvalidEntry f)) invalid
  else print AllValid.

Definition sample_phase (by_badge : gmap Z participant) : prog event unit :=
  print (Heading "5. SAMPLE PARTICIPANT DETAILS (First 5 and Last 5)");;
  for_each (print_sample by_badge) (seqZ 1 5);;
  for_each (print_sample by_badge) (seqZ 413 5).

(** [main] up to the construction of the [report] dictionary, given
    what the loaders return: the rows of the database and the state
    of the QR-code directory. *)
Definition run_checks (participants : list participant)
    (qr_dir : option (list str)) : prog event report :=
  print (Heading "COMPREHENSIVE PARTICIPANT VERIFICATION REPORT");;
  print (TotalParticipants (length participants));;
  by_badge ← lift (index_by_badge participants);
  badge_phase by_badge;;
  file_badges ← file_phase qr_dir;
  completeness_phase by_badge;;
  validity_phase by_badge;;
  sample_phase by_badge;;
  print (Heading "VERIFICATION SUMMARY");;
  all_passed ← summary (missing_badges_of by_badge) file_badges
                 (incomplete_of by_badge) (invalid_of by_badge);
  mret {| total_participants := length participants;
          missing_badges := missing_badges_of by_badge;
          incomplete_data := incomplete_of by_badge;
          invalid_data := invalid_of by_badge;
          all_passed := all_passed |}.

(** [main]; [can_write] tells whether the report file can be
    written. *)
Definition main (participants : list participant)
    (qr_dir : option (list str)) (can_write : bool) : prog event unit :=
  r ← run_checks participants qr_dir;
  save_report can_write r;;
  print ReportSaved.

End VerifyAll.

(* ===================================================================== *)
(** * verify_final_data.py *)
(* ===================================================================== *)

Module VerifyFinal.

(** A value handed to a normalizer or held by a spreadsheet cell:
    [None], the missing-cell marker NaN, an [int], or a [str].  Cells
    that hold another floating-point number are not part of the
    model. *)
Inductive value : Type :=
| PyNone
| NaN
| Int (n : Z)
| Str (s : str).

(** [pd.isna(v)] *)
Definition isna (v : value) : bool :=
  match v with
  | PyNone | NaN => true
  | _ => false
  end.

(** [str(v)] *)
Definition str_of (v : value) : str :=
  match v with
  | PyNone => lit "None"
  | NaN => lit "nan"
  | Int n => str_of_int n
  | Str s => s
  end.

(** A nullable text column of the database as a value. *)
Definition of_db (v : option str) : value :=
  match v with
  | Some s => Str s
  | None => PyNone
  end.

Definition normalize_name (name : value) : str :=
  if isna name then []
  else lower (strip (str_of name)).

Definition normalize_phone (phone : value) : str :=
  if isna phone then []
  else last_n 10 (replace (lit "+91") []
                    (replace (lit "-") []
                       (replace (lit " ") [] (strip (str_of phone))))).

Definition normalize_blood_group (bg : value) : str :=
  if isna bg then []
  else replace (lit " ") [] (upper (strip (str_of bg))).

(** The cells that one iteration of the comparison reads from a row
    of the "Final Data" sheet, its columns taken by position (the
    sheet has at least five); [r_photo] is [None] when the sheet has
    no sixth column or the label of that column is falsy, the two
    cases in which [photo_col] does not pass the test
    [if photo_col and ...]. *)
Record row : Type := Row {
  r_name : value;
  r_badge : value;
  r_age : value;
  r_blood : value;
  r_emergency : value;
  r_photo : option value
}.

(** The sheet as [pd.read_excel] returns it: the labels of its
    columns, which are distinct, and its rows, each with one cell
    per column. *)
Record frame : Type := Frame {
  columns : list value;
  cells : list (list value)
}.

(** [excel_cols[i]] *)
Definition column (excel_cols : list value) (i : nat) : result value :=
  match excel_cols !! i with
  | Some label => Ok label
  | None => Raise IndexError
  end.

(** [excel_cols[5] if len(excel_cols) > 5 else None] *)
Definition photo_column (excel_cols : list value) : option value :=
  if (5 <? length excel_cols)%nat then excel_cols !! 5%nat else None.

(** Truthiness of a column label. *)
Definition label_truthy (label : value) : bool :=
  match label with
  | PyNone => false
  | NaN => true
  | Int n => negb (n =? 0)
  | Str s => negb (is_empty s)
  end.

(** [row[col]] for the column at position [i]: the labels being
    distinct, the lookup by label is the lookup by position.  The
    default is not reached on a row that has a cell for column [i]. *)
Definition cell (r : list value) (i : nat) : value := default NaN (r !! i).

(** The cells read from one row, given [photo_col]. *)
Definition row_of (photo_col : option value) (r : list value) : row :=
  {| r_name := cell r 0;
     r_badge := cell r 1;
     r_age := cell r 2;
     r_blood := cell r 3;
     r_emergency := cell r 4;
     r_photo := match photo_col with
                | Some label => if label_truthy label then Some (cell r 5) else None
                | None => None
                end |}.

(** The rows of a sheet as the comparison reads them. *)
Definition rows_of (excel_df : frame) : list row :=
  map (row_of (photo_column (columns excel_df))) (cells excel_df).

Inductive issue_kind : Type :=
| MISSING_IN_DB
| DATA_MISMATCH.

(** An entry of [discrepancies]; [d_db_name] is present for
    [DATA_MISMATCH] only. *)
Record discrepancy : Type := Discrepancy {
  d_badge : Z;
  d_issue : issue_kind;
  d_excel_name : str;
  d_db_name : option str;
  d_details : str
}.

Definition quoted (s : str) : str := lit "'" ++ s ++ lit "'".

(** [str(v).strip() if not pd.isna(v) else ''] *)
Definition stripped_or_empty (v : value) : str :=
  if negb (isna v) then strip (str_of v) else [].

(** [str(v).strip() if v else ''] for a database column *)
Definition db_stripped_or_empty (v : option str) : str :=
  if truthy v then strip (str_of_opt v) else [].

Section Compare.

(** [int(float(s))]: [None] when either conversion raises.  The
    conversion through a binary floating-point number is left as a
    parameter of the comparison. *)
Variable int_of_float_str : str -> option Z.

(** [int(row[badge_col]) if not pd.isna(row[badge_col]) else None] *)
Definition badge_of (v : value) : result (option Z) :=
  match v with
  | PyNone | NaN => Ok None
  | Int n => Ok (Some n)
  | Str s => n ← int_of_str s; Ok (Some n)
  end.

(** The age cell, which may read ['16 years']. *)
Definition excel_age_of (excel_age_raw : value) : option Z :=
  if isna excel_age_raw then None
  else
    let age_str :=
      strip (replace (lit "year") []
               (replace (lit "years") []
                  (lower (strip (str_of excel_age_raw))))) in
    int_of_float_str age_str.

(** [excel_age != db_age] for an [int] against the column value *)
Definition age_differs (excel_age : Z) (db_age : age_value) : bool :=
  match db_age with
  | AgeInt n => negb (excel_age =? n)
  | AgeStr _ => true
  end.

(** The five field comparisons, each giving the messages it
    appends to [issues]. *)
Definition name_issues (excel_name db_name : str) : list str :=
  if bool_decide (normalize_name (Str excel_name) = normalize_name (Str db_name))
  then []
  else [lit "Name mismatch: Excel=" ++ quoted excel_name
          ++ lit " vs DB=" ++ quoted db_name].

Definition age_issues (excel_age : option Z) (db_age : option age_value)
  : list str :=
  match excel_age, db_age with
  | Some e, Some d =>
      if age_differs e d
      then [lit "Age mismatch: Excel=" ++ str_of_int e
              ++ lit " vs DB=" ++ str_of_age d]
      else []
  | Some e, None => [lit "Age missing in DB: Excel=" ++ str_of_int e]
  | None, _ => []
  end.

Definition blood_issues (excel_blood db_blood : str) : list str :=
  if bool_decide (normalize_blood_group (Str excel_blood)
                  = normalize_blood_group (Str db_blood))
  then []
  else if negb (is_empty excel_blood)
  then [lit "Blood group mismatch: Excel=" ++ quoted excel_blood
          ++ lit " vs DB=" ++ quoted db_blood]
  else [].

Definition emergency_issues (excel_emergency db_emergency : str) : list str :=
  if bool_decide (excel_emergency = db_emergency) then []
  else if negb (is_empty excel_emergency)
  then [lit "Emergency contact mismatch: Excel=" ++ quoted excel_emergency
          ++ lit " vs DB=" ++ quoted db_emergency]
  else [].

Definition photo_issues (excel_photo db_photo : str) : list str :=
  if negb (is_empty excel_photo) && is_empty db_photo
  then [lit "Photo missing in DB: Excel has photo link"]
  else [].

Definition excel_photo_of (r : row) : str :=
  match r_photo r with
  | Some v => stripped_or_empty v
  | None => []
  end.

(** The messages for one roster row against the record keyed by
    its badge. *)
Definition field_issues (r : row) (db_record : participant) : list str :=
  let excel_name := stripped_or_empty (r_name r) in
  let excel_age := excel_age_of (r_age r) in
  let excel_blood := stripped_or_empty (r_blood r) in
  let excel_emergency := normalize_phone (r_emergency r) in
  let excel_photo := excel_photo_of r in
  let db_name := db_stripped_or_empty (p_name db_record) in
  let db_age := p_age db_record in
  let db_blood := db_stripped_or_empty (p_bloodGroup db_record) in
  let db_emergency := normalize_phone (of_db (p_emergencyContact db_record)) in
  let db_photo := db_stripped_or_empty (p_photoUri db_record) in
  name_issues excel_name db_name
    ++ age_issues excel_age db_age
    ++ blood_issues excel_blood db_blood
    ++ emergency_issues excel_emergency db_emergency
    ++ photo_issues excel_photo db_photo.

(** One iteration of [for idx, row in excel_df.iterrows()], on the
    pair [(discrepancies, matches)]. *)
Definition compare_row (db_by_badge : gmap Z participant) (r : row)
    (st : list discrepancy * nat) : result (list discrepancy * nat) :=
  let '(discrepancies, matches) := st in
  badge ← badge_of (r_badge r);
  match badge with
  | None => Ok (discrepancies, matches)
  | Some badge =>
      let excel_name := stripped_or_empty (r_name r) in
      match db_by_badge !! badge with
      | None =>
          Ok (discrepancies ++
                [{| d_badge := badge;
                    d_issue := MISSING_IN_DB;
                    d_excel_name := excel_name;
                    d_db_name := None;
                    d_details := lit "Badge #" ++ str_of_int badge ++ lit " ("
                                   ++ excel_name ++ lit ") not found in database" |}],
              matches)
      | Some db_record =>
          let db_name := db_stripped_or_empty (p_name db_record) in
          let issues := field_issues r db_record in
          if negb (is_empty issues)
          then Ok (discrepancies ++
                     [{| d_badge := badge;
                         d_issue := DATA_MISMATCH;
                         d_excel_name := excel_name;
                         d_db_name := Some db_name;
                         d_details := join (lit "; ") issues |}],
                   matches)
          else Ok (discrepancies, S matches)
      end
  end.

Fixpoint compare_rows (db_by_badge : gmap Z participant) (rows : list row)
    (st : list discrepancy * nat) : result (list discrepancy * nat) :=
  match rows with
  | [] => Ok st
  | r :: rows' =>
      st' ← compare_row db_by_badge r st;
      compare_rows db_by_badge rows' st'
  end.

Record report : Type := Report {
  total_excel_records : nat;
  total_db_records : nat;
  matches : nat;
  discrepancies_count : nat;
  discrepancies : list discrepancy
}.

Inductive line : Type :=
| Heading (title : string)
| LoadedRows (n : nat)
| LoadedParticipants (n : nat)
| ColumnMapping
| MatchingRecords (n : nat)
| DiscrepanciesFound (n : nat)
| DiscrepancyDetail (d : discrepancy)
| ReportSaved.

Inductive event : Type :=
| Print (l : line)
| WriteReport (r : report).

Definition print (l : line) : prog event unit := emit (Print l).

Definition compare_data (excel_df : list row) (db_participants : list participant)
  : prog event (list discrepancy * nat) :=
  db_by_badge ← lift (index_by_badge db_participants);
  print ColumnMapping;;
  lift (compare_rows db_by_badge excel_df ([], O)).

(** [compare_data] on the sheet itself: between the index loop and
    the row loop, the five columns are looked up by position, each
    lookup raising [IndexError] on a sheet that lacks the column. *)
Definition compare_data_frame (excel_df : frame)
    (db_participants : list participant)
  : prog event (list discrepancy * nat) :=
  db_by_badge ← lift (index_by_badge db_participants);
  let excel_cols := columns excel_df in
  name_col ← lift (column excel_cols 0);
  badge_col ← lift (column excel_cols 1);
  age_col ← lift (column excel_cols 2);
  blood_col ← lift (column excel_cols 3);
  emergency_col ← lift (column excel_cols 4);
  let photo_col := photo_column excel_cols in
  print ColumnMapping;;
  lift (compare_rows db_by_badge (map (row_of photo_col) (cells excel_df))
          ([], O)).

(** [with open(...) as f: json.dump(report, f)] *)
Definition save_report (can_write : bool) (r : report) : prog event unit :=
  if can_write then emit (WriteReport r) else raise OSError.

(** [main] up to the construction of the [report] dictionary,
    given what the two loaders return. *)
Definition run_compare (excel_df : list row) (db_participants : list participant)
  : prog event (list discrepancy * report) :=
  print (Heading "FINAL DATA VERIFICATION REPORT");;
  print (LoadedRows (length excel_df));;
  print (LoadedParticipants (length db_participants));;
  '(discrepancies, matches) ← compare_data excel_df db_participants;
  print (Heading "VERIFICATION RESULTS");;
  print (MatchingRecords matches);;
  print (DiscrepanciesFound (length discrepancies));;
  when (negb (is_empty discrepancies))
    (print (Heading "DISCREPANCIES DETAIL:");;
     for_each (fun d => print (DiscrepancyDetail d)) discrepancies);;
  mret (discrepancies,
        {| total_excel_records := length excel_df;
           total_db_records := length db_participants;
           matches := matches;
           discrepancies_count := length discrepancies;
           discrepancies := discrepancies |}).

(** [main]; [can_write] tells whether the report file can be
    written. *)
Definition main (excel_df : list row) (db_participants : list participant)
    (can_write : bool) : prog event (list discrepancy) :=
  '(discrepancies, r) ← run_compare excel_df db_participants;
  save_report can_write r;;
  print ReportSaved;;
  mret discrepancies.

End Compare.

End VerifyFinal.

(* ===================================================================== *)
(** * Vocabulary of the statements *)
(* ===================================================================== *)

(** The first character of [s], if any, is not in the class [sp]. *)
Definition head_clean (sp : ascii -> bool) (s : str) : bool :=
  match s with
  | [] => true
  | c :: _ => negb (sp c)
  end.

(** Normalising the phone text [y] once more leaves it as it is: [y]
    has no whitespace at either end and no occurrence of ['+91']. *)
Definition phone_stable (y : str) : bool :=
  bool_decide (strip y = y) && negb (contains (lit "+91") y).

(** The token of [p] derives the badge number [b]. *)
Definition derives (b : Z) (p : participant) : bool :=
  match extract_badge_number (p_qrToken p) with
  | Ok (Some n) => n =? b
  | _ => false
  end.

(** [p] is the record occurring latest in [ps] among those whose token
    derives [b]. *)
Definition latest_deriving (b : Z) (ps : list participant) (p : participant) : Prop :=
  exists before after,
    ps = before ++ p :: after /\ derives b p = true
    /\ Forall (fun q => derives b q = false) after.

(** The three finding lists of [verify_all_participants.py] for the
    rows [ps]. *)
Definition findings_of (ps : list participant)
  : result (list Z * list VerifyAll.finding * list VerifyAll.finding) :=
  by_badge ← index_by_badge ps;
  Ok (VerifyAll.missing_badges_of by_badge, VerifyAll.incomplete_of by_badge,
      VerifyAll.invalid_of by_badge).

(** The validity check lists the record [p] under [badge] and gives
    the message [msg] among its issues. *)
Definition flagged (by_badge : gmap Z participant) (badge : Z) (p : participant)
    (msg : str) : Prop :=
  (badge, p_name p, VerifyAll.issues_of badge p) ∈ VerifyAll.invalid_of by_badge
  /\ msg ∈ VerifyAll.issues_of badge p.

Definition finding_badge (f : VerifyAll.finding) : Z := fst (fst f).

(** The badge number of a roster row, for the rows that have one. *)
Definition row_badge (r : VerifyFinal.row) : option Z :=
  match VerifyFinal.badge_of (VerifyFinal.r_badge r) with
  | Ok b => b
  | Raise _ => None
  end.

(** The report document a run wrote, if it wrote one. *)
Definition written {L R A} (wr : L -> option R) (m : prog L A) : option R :=
  last (omap wr (events m)).

Definition all_report (e : VerifyAll.event) : option VerifyAll.report :=
  match e with
  | VerifyAll.WriteReport r => Some r
  | _ => None
  end.

(** [c] is a decimal digit. *)
Definition digit (c : ascii) : Prop := is_digit c = true.

(** Text whose characters are ASCII. *)
Definition ascii_text (s : str) : Prop := Forall (fun c => (code c < 128)%N) s.

(** The badge number that a file name adds to the listing, if any. *)
Definition file_number (name : str) : option Z :=
  match VerifyAll.file_badge name with
  | Ok b => b
  | Raise _ => None
  end.

(** The badges whose sample entry is printed. *)
Definition sampled : list Z := seqZ 1 5 ++ seqZ 413 5.

(** A uuid that the validity check accepts: 36 characters, four of
    them hyphens. *)
Definition uuid_well_formed (uuid : option str) : Prop :=
  exists u, uuid = Some u /\ length u = 36%nat /\ count_char "-" u = 4%nat.

(** An age that the validity check accepts: none, or one that [int]
    reads as a number of 1..120. *)
Definition age_acceptable (age : option age_value) : Prop :=
  age = None \/ exists a n, age = Some a /\ int_of_age a = Ok n /\ 1 <= n <= 120.

(** A column that is NULL, empty or all whitespace. *)
Definition blank (v : option str) : Prop :=
  v = None \/ exists s, v = Some s /\ strip s = [].

(** A column that is NULL or empty. *)
Definition absent (v : option str) : Prop := v = None \/ v = Some [].

(** The three checks that can end a run of [main] before the report
    is written all pass: every token converts, every listed file
    name converts, and every record sampled for display has a uuid. *)
Definition checks_pass (ps : list participant) (dir : option (list str)) : Prop :=
  exists by_badge,
    index_by_badge ps = Ok by_badge
    /\ (forall files, dir = Some files ->
                      Forall (fun f => VerifyAll.file_badge f <> Raise ValueError) files)
    /\ (forall b p, b ∈ sampled -> by_badge !! b = Some p -> p_uuid p <> None).

(** The entry that a roster row adds to the discrepancy list, if it
    adds one. *)
Definition row_entry (f : str -> option Z) (db_by_badge : gmap Z participant)
    (r : VerifyFinal.row) : option VerifyFinal.discrepancy :=
  match VerifyFinal.compare_row f db_by_badge r ([], O) with
  | Ok (d :: _, _) => Some d
  | _ => None
  end.

(** ** Data for the examples *)

Definition sample_uuid : str := lit "123e4567-e89b-12d3-a456-426614174000".

(** A complete, valid record for badge [b]. *)
Definition valid_participant (b : Z) : participant :=
  {| p_id := b;
     p_uuid := Some sample_uuid;
     p_name := Some (lit "Asha");
     p_mobile := None;
     p_qrToken := Some (PREFIX ++ str_of_int b);
     p_emergencyContact := None;
     p_photoUri := None;
     p_bloodGroup := None;
     p_age := Some (AgeInt 30) |}.

(** A database that holds one valid record for each badge of the
    cohort. *)
Definition full_cohort_db : list participant := map valid_participant cohort.

(** A roster row for badge [b] with a name and nothing else. *)
Definition roster_row (name : VerifyFinal.value) (b : Z) : VerifyFinal.row :=
  {| VerifyFinal.r_name := name;
     VerifyFinal.r_badge := VerifyFinal.Int b;
     VerifyFinal.r_age := VerifyFinal.NaN;
     VerifyFinal.r_blood := VerifyFinal.NaN;
     VerifyFinal.r_emergency := VerifyFinal.NaN;
     VerifyFinal.r_photo := None |}.

(** A sheet of four columns, with one row. *)
Definition narrow_sheet : VerifyFinal.frame :=
  {| VerifyFinal.columns :=
       [VerifyFinal.Str (lit "Name"); VerifyFinal.Str (lit "Badge");
        VerifyFinal.Str (lit "Age"); VerifyFinal.Str (lit "Blood")];
     VerifyFinal.cells :=
       [[VerifyFinal.Str (lit "A"); VerifyFinal.Int 1;
         VerifyFinal.NaN; VerifyFinal.NaN]] |}.

(** A float conversion that always fails, for rows with no age. *)
Definition no_age : str -> option Z := fun _ => None.

(** A record whose badge lies outside the cohort, with a malformed
    uuid and age 0. *)
Definition outsider : participant :=
  {| p_id := 500;
     p_uuid := Some (lit "not-a-uuid");
     p_name := Some (lit "Asha");
     p_mobile := None;
     p_qrToken := Some (lit "PALITANA_YATRA_500");
     p_emergencyContact := None;
     p_photoUri := None;
     p_bloodGroup := None;
     p_age := Some (AgeInt 0) |}.

(** The record of badge 7 with a uuid of 35 characters. *)
Definition short_uuid : str := lit "123e4567-e89b-12d3-a456-42661417400".

Definition badge_seven : participant :=
  {| p_id := 7;
     p_uuid := Some short_uuid;
     p_name := Some (lit "Asha");
     p_mobile := None;
     p_qrToken := Some (lit "PALITANA_YATRA_7");
     p_emergencyContact := None;
     p_photoUri := None;
     p_bloodGroup := None;
     p_age := Some (AgeInt 30) |}.

(** Two records whose tokens both derive badge 5. *)
Definition first_five : participant := valid_participant 5.

Definition second_five : participant :=
  {| p_id := 99;
     p_uuid := Some sample_uuid;
     p_name := Some (lit "Bela");
     p_mobile := None;
     p_qrToken := Some (lit "PALITANA_YATRA_5");
     p_emergencyContact := None;
     p_photoUri := None;
     p_bloodGroup := None;
     p_age := None |}.

(** The record of badge 1 with a NULL uuid. *)
Definition badge_one_no_uuid : participant :=
  {| p_id := 1;
     p_uuid := None;
     p_name := Some (lit "Asha");
     p_mobile := None;
     p_qrToken := Some (lit "PALITANA_YATRA_1");
     p_emergencyContact := None;
     p_photoUri := None;
     p_bloodGroup := None;
     p_age := None |}.

(** A record whose token derives badge 0. *)
Definition badge_zero : participant :=
  {| p_id := 100;
     p_uuid := None;
     p_name := None;
     p_mobile := None;
     p_qrToken := Some (lit "PALITANA_YATRA_0");
     p_emergencyContact := None;
     p_photoUri := None;
     p_bloodGroup := None;
     p_age := Some (AgeInt 0) |}.


(* ===================================================================== *)
(** * Facts about the string built-ins *)
(* ===================================================================== *)

Module PyFacts.

Ltac by_cases_on_char c :=
  destruct c as [[] [] [] [] [] [] [] []]; vm_compute; try reflexivity;
  try discriminate; auto.

Lemma lower_char_idem c : lower_char (lower_char c) = lower_char c.
Proof. by_cases_on_char c. Qed.

Lemma upper_char_idem c : upper_char (upper_char c) = upper_char c.
Proof. by_cases_on_char c. Qed.

Lemma isspace_lower_char c : isspace (lower_char c) = isspace c.
Proof. by_cases_on_char c. Qed.

Lemma isspace_upper_char c : isspace (upper_char c) = isspace c.
Proof. by_cases_on_char c. Qed.

Lemma eqc_true a b : eqc a b = true <-> a = b.
Proof. unfold eqc. apply Ascii.eqb_eq. Qed.

Lemma eqc_false a b : eqc a b = false <-> a <> b.
Proof. unfold eqc. apply Ascii.eqb_neq. Qed.

Lemma eqc_refl a : eqc a a = true.
Proof. by apply eqc_true. Qed.

Lemma lower_idem s : lower (lower s) = lower s.
Proof.
  unfold lower. rewrite map_map. apply map_ext. intros c. apply lower_char_idem.
Qed.

(** ** Stripping *)
Section Strip.
Variable sp : ascii -> bool.

Lemma lstrip_by_head_clean s : head_clean sp (lstrip_by sp s) = true.
Proof.
  induction s as [|c s IH]; simpl; [done|].
  destruct (sp c) eqn:E; [done|]. simpl. by rewrite E.
Qed.

Lemma lstrip_by_fixed s : head_clean sp s = true -> lstrip_by sp s = s.
Proof. destruct s as [|c s]; simpl; [done|]. by destruct (sp c). Qed.

Lemma lstrip_by_length s : (length (lstrip_by sp s) <= length s)%nat.
Proof.
  induction s as [|c s IH]; simpl; [lia|]. destruct (sp c); simpl; lia.
Qed.

Lemma lstrip_by_fixed_or_shorter s :
  lstrip_by sp s = s \/ (length (lstrip_by sp s) < length s)%nat.
Proof.
  destruct s as [|c s]; simpl; [by left|].
  destruct (sp c); [right|by left].
  pose proof (lstrip_by_length s). lia.
Qed.

Lemma rstrip_by_cons c s :
  rstrip_by sp (c :: s) =
    if is_empty (rstrip_by sp s) && sp c then [] else c :: rstrip_by sp s.
Proof. simpl. destruct (rstrip_by sp s); simpl; [|done]. by destruct (sp c). Qed.

Lemma rstrip_by_head_clean s :
  head_clean sp s = true -> head_clean sp (rstrip_by sp s) = true.
Proof.
  destruct s as [|c s]; [done|]. rewrite rstrip_by_cons.
  by destruct (is_empty (rstrip_by sp s) && sp c).
Qed.

Lemma rstrip_by_idem s : rstrip_by sp (rstrip_by sp s) = rstrip_by sp s.
Proof.
  induction s as [|c s IH]; [done|]. rewrite rstrip_by_cons.
  destruct (is_empty (rstrip_by sp s) && sp c) eqn:E; [done|].
  rewrite rstrip_by_cons, IH, E. done.
Qed.

Lemma rstrip_by_length s : (length (rstrip_by sp s) <= length s)%nat.
Proof.
  induction s as [|c s IH]; [done|]. rewrite rstrip_by_cons.
  destruct (is_empty (rstrip_by sp s) && sp c); simpl; lia.
Qed.

Lemma rstrip_by_fixed_or_shorter s :
  rstrip_by sp s = s \/ (length (rstrip_by sp s) < length s)%nat.
Proof.
  induction s as [|c s IH]; [by left|]. rewrite rstrip_by_cons.
  destruct (is_empty (rstrip_by sp s) && sp c); simpl; [right; lia|].
  destruct IH as [->|IH]; [by left|right; lia].
Qed.

Lemma strip_by_head_clean s : head_clean sp (strip_by sp s) = true.
Proof. apply rstrip_by_head_clean, lstrip_by_head_clean. Qed.

Lemma strip_by_idem s : strip_by sp (strip_by sp s) = strip_by sp s.
Proof.
  unfold strip_by.
  rewrite (lstrip_by_fixed (rstrip_by sp _)) by apply strip_by_head_clean.
  apply rstrip_by_idem.
Qed.

Lemma strip_by_length s : (length (strip_by sp s) <= length s)%nat.
Proof.
  unfold strip_by. pose proof (rstrip_by_length (lstrip_by sp s)).
  pose proof (lstrip_by_length s). lia.
Qed.

Lemma strip_by_fixed_or_shorter s :
  strip_by sp s = s \/ (length (strip_by sp s) < length s)%nat.
Proof.
  unfold strip_by.
  destruct (lstrip_by_fixed_or_shorter s) as [->|H].
  - apply rstrip_by_fixed_or_shorter.
  - right. pose proof (rstrip_by_length (lstrip_by sp s)). lia.
Qed.

(** A character map that keeps the space class commutes with
    stripping. *)
Lemma lstrip_by_map f s :
  (forall c, sp (f c) = sp c) ->
  lstrip_by sp (map f s) = map f (lstrip_by sp s).
Proof.
  intros Hf. induction s as [|c s IH]; simpl; [done|].
  rewrite Hf. by destruct (sp c).
Qed.

Lemma rstrip_by_map f s :
  (forall c, sp (f c) = sp c) ->
  rstrip_by sp (map f s) = map f (rstrip_by sp s).
Proof.
  intros Hf. induction s as [|c s IH]; [done|].
  rewrite map_cons, !rstrip_by_cons, IH, Hf.
  assert (is_empty (map f (rstrip_by sp s)) = is_empty (rstrip_by sp s)) as ->
    by by destruct (rstrip_by sp s).
  by destruct (is_empty (rstrip_by sp s) && sp c).
Qed.

Lemma strip_by_map f s :
  (forall c, sp (f c) = sp c) ->
  strip_by sp (map f s) = map f (strip_by sp s).
Proof.
  intros Hf. unfold strip_by. by rewrite lstrip_by_map, rstrip_by_map.
Qed.
End Strip.

Lemma strip_idem s : strip (strip s) = strip s.
Proof. apply strip_by_idem. Qed.

Lemma strip_head_not_space c s t : strip s = c :: t -> isspace c = false.
Proof.
  intros E. pose proof (strip_by_head_clean isspace s) as H.
  fold (strip s) in H. rewrite E in H. simpl in H. by destruct (isspace c).
Qed.

(** ** Replacing *)
Section Replace.
Variables old new : str.

Lemma replace_from_skip k s :
  replace_from old new k s = replace old new (drop k s).
Proof.
  revert k. induction s as [|c s IH]; intros k.
  - by destruct k.
  - destruct k as [|k]; [done|]. simpl. apply IH.
Qed.

Lemma replace_nil : replace old new [] = [].
Proof. done. Qed.

Lemma replace_cons c s :
  replace old new (c :: s) =
    if startswith old (c :: s)
    then new ++ replace old new (drop (Nat.pred (length old)) s)
    else c :: replace old new s.
Proof.
  unfold replace at 1. simpl replace_from.
  destruct (startswith old (c :: s)); [|done].
  by rewrite replace_from_skip.
Qed.

Lemma replace_absent s : contains old s = false -> replace old new s = s.
Proof.
  induction s as [|c s IH]; [done|].
  simpl contains. intros [H1 H2]%orb_false_iff.
  rewrite replace_cons, H1. f_equal. by apply IH.
Qed.
End Replace.

Lemma startswith_length p s : startswith p s = true -> (length p <= length s)%nat.
Proof.
  revert s. induction p as [|a p IH]; intros [|b s]; simpl; try done; try lia.
  intros [_ H]%andb_true_iff. apply IH in H. lia.
Qed.

(** Deleting the occurrences of a pattern never lengthens a string,
    and shortens it when the pattern occurs. *)
Lemma replace_delete_length_le old n s :
  (length s <= n)%nat -> (length (replace old [] s) <= length s)%nat.
Proof.
  revert s. induction n as [|n IH]; intros [|c s] Hn; simpl in Hn; try done; try lia.
  rewrite replace_cons. destruct (startswith old (c :: s)); simpl.
  - etrans; [apply IH|]; rewrite length_drop; lia.
  - specialize (IH s). lia.
Qed.

Lemma replace_delete_length old s :
  (length (replace old [] s) <= length s)%nat.
Proof. by apply (replace_delete_length_le old (length s)). Qed.

Lemma replace_delete_shorter old s :
  old <> [] -> contains old s = true ->
  (length (replace old [] s) < length s)%nat.
Proof.
  intros Hold. induction s as [|c s IH]; simpl contains.
  - destruct old; [done|]. done.
  - rewrite replace_cons. destruct (startswith old (c :: s)); simpl.
    + intros _. pose proof (replace_delete_length old (drop (Nat.pred (length old)) s)).
      rewrite length_drop in *. lia.
    + intros H. apply IH in H. lia.
Qed.

(** Deleting a pattern introduces no character. *)
Lemma replace_delete_Forall_le (P : ascii -> Prop) old n s :
  (length s <= n)%nat -> Forall P s -> Forall P (replace old [] s).
Proof.
  revert s. induction n as [|n IH]; intros [|c s] Hn HP; simpl in Hn; try done; try lia.
  rewrite replace_cons. apply Forall_cons in HP as [Hc HP].
  destruct (startswith old (c :: s)); simpl.
  - apply IH; [rewrite length_drop; lia|]. by apply Forall_drop.
  - constructor; [done|]. apply IH; [lia|done].
Qed.

Lemma replace_delete_Forall (P : ascii -> Prop) old s :
  Forall P s -> Forall P (replace old [] s).
Proof. by apply (replace_delete_Forall_le P old (length s)). Qed.

(** Deleting one character is a filter. *)
Lemma replace_delete_char a s :
  replace [a] [] s = List.filter (fun c => negb (eqc a c)) s.
Proof.
  induction s as [|c s IH]; [done|].
  rewrite replace_cons. cbn [startswith length Nat.pred drop app List.filter].
  rewrite andb_true_r, IH. by destruct (eqc a c).
Qed.

Lemma replace_delete_char_Forall a s :
  Forall (fun c => a <> c) (replace [a] [] s).
Proof.
  rewrite replace_delete_char. apply List.Forall_forall. intros c.
  intros [_ H]%filter_In. by apply negb_true_iff, eqc_false in H.
Qed.

Lemma replace_delete_char_fixed a s :
  Forall (fun c => a <> c) s -> replace [a] [] s = s.
Proof.
  rewrite replace_delete_char. induction 1 as [|c s Hc _ IH]; [done|].
  simpl. apply eqc_false in Hc. by rewrite Hc, IH.
Qed.

Lemma last_n_length n s : (length (last_n n s) <= n)%nat.
Proof. unfold last_n. rewrite length_drop. lia. Qed.

Lemma last_n_length_le n s : (length (last_n n s) <= length s)%nat.
Proof. unfold last_n. rewrite length_drop. lia. Qed.

Lemma last_n_short n s : (length s <= n)%nat -> last_n n s = s.
Proof. intros H. unfold last_n. by replace (length s - n)%nat with O by lia. Qed.

Lemma last_n_Forall (P : ascii -> Prop) n s : Forall P s -> Forall P (last_n n s).
Proof. apply Forall_drop. Qed.

(** ** Stripping and filtering *)
Section StripFilter.
Variable sp : ascii -> bool.
Variable keep : ascii -> bool.
Hypothesis keep_non_space : forall c, sp c = false -> keep c = true.

Lemma strip_by_fixed_split s :
  strip_by sp s = s -> lstrip_by sp s = s /\ rstrip_by sp s = s.
Proof.
  intros E. assert (lstrip_by sp s = s) as El.
  { apply lstrip_by_fixed. rewrite <- E. apply strip_by_head_clean. }
  split; [done|]. unfold strip_by in E. by rewrite El in E.
Qed.

Lemma rstrip_by_fixed_filter_nonempty s :
  rstrip_by sp s = s -> s <> [] -> List.filter keep s <> [].
Proof.
  induction s as [|c s IH]; [done|]. rewrite rstrip_by_cons.
  destruct (is_empty (rstrip_by sp s) && sp c) eqn:E; [done|].
  intros [= Es] _. simpl. destruct (keep c) eqn:Ek; [done|].
  apply IH; [done|]. intros ->. simpl in E.
  rewrite keep_non_space in Ek; done.
Qed.

Lemma rstrip_by_fixed_filter s :
  rstrip_by sp s = s -> rstrip_by sp (List.filter keep s) = List.filter keep s.
Proof.
  induction s as [|c s IH]; [done|]. rewrite rstrip_by_cons.
  destruct (is_empty (rstrip_by sp s) && sp c) eqn:E; [done|].
  intros [= Es]. rewrite Es in E. simpl. destruct (keep c) eqn:Ek; [|by apply IH].
  rewrite rstrip_by_cons, IH by done.
  destruct (is_empty (List.filter keep s)) eqn:Ef; [|done].
  destruct (sp c) eqn:Ec; [|done]. rewrite andb_true_r in E.
  destruct s; [done|]. exfalso.
  eapply (rstrip_by_fixed_filter_nonempty (a :: s)); [done|done|].
  by destruct (List.filter keep (a :: s)).
Qed.

Lemma lstrip_by_fixed_filter s :
  lstrip_by sp s = s -> lstrip_by sp (List.filter keep s) = List.filter keep s.
Proof.
  intros E. apply lstrip_by_fixed.
  pose proof (lstrip_by_head_clean sp s) as H. rewrite E in H.
  destruct s as [|c s]; [done|]. simpl in *.
  apply negb_true_iff in H. rewrite (keep_non_space c H). simpl. by rewrite H.
Qed.

Lemma strip_by_fixed_filter s :
  strip_by sp s = s -> strip_by sp (List.filter keep s) = List.filter keep s.
Proof.
  intros [El Er]%strip_by_fixed_split. unfold strip_by.
  rewrite lstrip_by_fixed_filter by done. by apply rstrip_by_fixed_filter.
Qed.
End StripFilter.

(** ** The built-ins on sample texts *)

Example int_of_str_samples :
  map (fun s => int_of_str (lit s))
      ["5"; " 5 "; "0_1"; "007"; "+5"; "-0"; "1__2"; "_1"; "1_"; "+ 5"; "";
       "--5"; "5.0"; "1 2"]%string
  = [Ok 5; Ok 5; Ok 1; Ok 7; Ok 5; Ok 0; Raise ValueError; Raise ValueError;
     Raise ValueError; Raise ValueError; Raise ValueError; Raise ValueError;
     Raise ValueError; Raise ValueError].
Proof. reflexivity. Qed.

(** The separators FS..US are stripped by [strip] and rejected by
    [int]. *)
Example file_separator_samples :
  strip (ascii_of_nat 28 :: lit " a") = lit "a"
  /\ int_of_str (ascii_of_nat 28 :: lit "5") = Raise ValueError
  /\ int_of_str (ascii_of_nat 9 :: lit "5") = Ok 5.
Proof. repeat split; reflexivity. Qed.

Example replace_samples :
  replace (lit "+91") [] (lit "+9+911") = lit "+91"
  /\ replace (lit "aa") (lit "b") (lit "aaa") = lit "ba"
  /\ replace (lit "years") [] (lit "16 years") = lit "16 "
  /\ last_n 10 (lit "0123456789abc") = lit "3456789abc"
  /\ last_n 10 (lit "abc") = lit "abc".
Proof. repeat split; reflexivity. Qed.

Example str_of_int_samples :
  str_of_int 417 = lit "417" /\ str_of_int (-3) = lit "-3" /\ str_of_int 0 = lit "0".
Proof. repeat split; reflexivity. Qed.

Lemma map_fixed {A} (f : A -> A) (l : list A) :
  Forall (fun x => f x = x) l -> map f l = l.
Proof. induction 1 as [|x l Hx _ IH]; [done|]. simpl. by rewrite Hx, IH. Qed.

Lemma is_empty_nil {A} (l : list A) : is_empty l = true <-> l = [].
Proof. by destruct l. Qed.

End PyFacts.

Import PyFacts.

(* ===================================================================== *)
(** * The normalizers *)
(* ===================================================================== *)

Module Normalizers.
Import VerifyFinal.

Lemma normalize_name_idem x :
  normalize_name (Str (normalize_name x)) = normalize_name x.
Proof.
  unfold normalize_name. destruct (isna x) eqn:E; [done|].
  cbn [isna str_of]. unfold lower, strip.
  rewrite strip_by_map by apply isspace_lower_char.
  rewrite strip_by_idem. apply lower_idem.
Qed.

Lemma space_kept_out c : isspace c = false -> negb (eqc " " c) = true.
Proof.
  intros H. apply negb_true_iff, eqc_false. intros <-. done.
Qed.

Lemma normalize_blood_group_idem x :
  normalize_blood_group (Str (normalize_blood_group x)) = normalize_blood_group x.
Proof.
  unfold normalize_blood_group. destruct (isna x) eqn:E; [done|].
  cbn [isna str_of]. change (lit " ") with [" "%char].
  set (u := upper (strip (str_of x))).
  assert (strip u = u) as Hu.
  { unfold u, upper, strip.
    rewrite strip_by_map by apply isspace_upper_char. by rewrite strip_by_idem. }
  assert (strip (replace [" "%char] [] u) = replace [" "%char] [] u) as ->.
  { rewrite replace_delete_char. apply strip_by_fixed_filter; [|done].
    apply space_kept_out. }
  assert (upper (replace [" "%char] [] u) = replace [" "%char] [] u) as ->.
  { apply map_fixed, replace_delete_Forall. unfold u, upper.
    apply Forall_map, Forall_forall. intros c _. apply upper_char_idem. }
  apply replace_delete_char_fixed, replace_delete_char_Forall.
Qed.

(** The characters that [normalize_phone] deletes are absent from
    its result, which has at most ten characters. *)
Lemma normalize_phone_shape x :
  let y := normalize_phone x in
  Forall (fun c => " "%char <> c) y /\ Forall (fun c => "-"%char <> c) y
  /\ (length y <= 10)%nat.
Proof.
  unfold normalize_phone. destruct (isna x); [by repeat constructor|].
  change (lit " ") with [" "%char]. change (lit "-") with ["-"%char].
  split; [|split].
  - apply last_n_Forall, replace_delete_Forall, replace_delete_Forall,
      replace_delete_char_Forall.
  - apply last_n_Forall, replace_delete_Forall, replace_delete_char_Forall.
  - apply last_n_length.
Qed.

Lemma normalize_phone_length s : (length (normalize_phone (Str s)) <= length (strip s))%nat.
Proof.
  unfold normalize_phone. cbn [isna str_of].
  etrans; [apply last_n_length_le|].
  etrans; [apply replace_delete_length|].
  etrans; [apply replace_delete_length|].
  apply replace_delete_length.
Qed.

Lemma normalize_phone_again x :
  let y := normalize_phone x in
  bool_decide (normalize_phone (Str y) = y) = phone_stable y.
Proof.
  intros y. destruct (normalize_phone_shape x) as (Hsp & Hdash & Hlen).
  fold y in Hsp, Hdash, Hlen. unfold phone_stable.
  destruct (strip_by_fixed_or_shorter isspace y) as [Hfix|Hshort]; fold (strip y) in *.
  - rewrite (bool_decide_eq_true_2 (strip y = y)) by done. cbn [andb].
    assert (normalize_phone (Str y) = last_n 10 (replace (lit "+91") [] y)) as ->.
    { unfold normalize_phone. cbn [isna str_of]. rewrite Hfix.
      change (lit " ") with [" "%char]. change (lit "-") with ["-"%char].
      rewrite (replace_delete_char_fixed " " y Hsp).
      by rewrite (replace_delete_char_fixed "-" y Hdash). }
    destruct (contains (lit "+91") y) eqn:Ec; cbn [negb].
    + apply bool_decide_eq_false_2. intros E.
      pose proof (replace_delete_shorter (lit "+91") y ltac:(done) Ec).
      pose proof (last_n_length_le 10 (replace (lit "+91") [] y)).
      rewrite E in *. lia.
    + rewrite replace_absent by done. rewrite last_n_short by done.
      by apply bool_decide_eq_true_2.
  - rewrite (bool_decide_eq_false_2 (strip y = y)) by (intros E; rewrite E in Hshort; lia).
    cbn [andb]. apply bool_decide_eq_false_2. intros E.
    pose proof (normalize_phone_length y). rewrite E in *. lia.
Qed.

End Normalizers.

(* ===================================================================== *)
(** * Cross-source comparison, field by field *)
(* ===================================================================== *)

Module FieldRules.
Import VerifyFinal.

(** Texts that went through [strip]. *)
Lemma stripped_or_empty_fixed v : strip (stripped_or_empty v) = stripped_or_empty v.
Proof. unfold stripped_or_empty. destruct (isna v); [done|apply strip_idem]. Qed.

Lemma db_stripped_or_empty_fixed v :
  strip (db_stripped_or_empty v) = db_stripped_or_empty v.
Proof. unfold db_stripped_or_empty. destruct (truthy v); [apply strip_idem|done]. Qed.

Lemma normalize_name_empty e :
  strip e = e -> is_empty (normalize_name (Str e)) = is_empty e.
Proof.
  intros He. unfold normalize_name. cbn [isna str_of]. rewrite He.
  by destruct e.
Qed.

Lemma normalize_blood_group_empty e :
  strip e = e -> is_empty (normalize_blood_group (Str e)) = is_empty e.
Proof.
  intros He. unfold normalize_blood_group. cbn [isna str_of]. rewrite He.
  destruct e as [|c e]; [done|].
  apply strip_head_not_space in He.
  change (lit " ") with [" "%char]. rewrite replace_delete_char.
  rewrite <- isspace_upper_char in He. apply Normalizers.space_kept_out in He.
  cbn [upper map List.filter]. by rewrite He.
Qed.

Lemma name_issues_db_empty e :
  strip e = e ->
  name_issues e [] =
    if is_empty e then []
    else [lit "Name mismatch: Excel=" ++ quoted e ++ lit " vs DB=" ++ quoted []].
Proof.
  intros He. unfold name_issues. pose proof (normalize_name_empty e He) as H.
  change (normalize_name (Str [])) with (@nil ascii).
  destruct e as [|c e]; [done|]. simpl in H.
  rewrite bool_decide_eq_false_2; [done|]. intros E. by rewrite E in H.
Qed.

Lemma name_issues_excel_empty d :
  strip d = d ->
  name_issues [] d =
    if is_empty d then []
    else [lit "Name mismatch: Excel=" ++ quoted [] ++ lit " vs DB=" ++ quoted d].
Proof.
  intros Hd. unfold name_issues. pose proof (normalize_name_empty d Hd) as H.
  change (normalize_name (Str [])) with (@nil ascii).
  destruct d as [|c d]; [done|]. simpl in H.
  rewrite bool_decide_eq_false_2; [done|]. intros E. by rewrite <- E in H.
Qed.

Lemma blood_issues_excel_empty d : blood_issues [] d = [].
Proof. unfold blood_issues. by case_bool_decide. Qed.

Lemma blood_issues_db_empty e :
  strip e = e ->
  blood_issues e [] =
    if is_empty e then []
    else [lit "Blood group mismatch: Excel=" ++ quoted e
            ++ lit " vs DB=" ++ quoted []].
Proof.
  intros He. unfold blood_issues.
  pose proof (normalize_blood_group_empty e He) as H.
  change (normalize_blood_group (Str [])) with (@nil ascii).
  destruct e as [|c e]; [done|]. simpl in H.
  rewrite bool_decide_eq_false_2; [done|]. intros E. by rewrite E in H.
Qed.

Lemma emergency_issues_excel_empty d : emergency_issues [] d = [].
Proof. unfold emergency_issues. by case_bool_decide. Qed.

Lemma emergency_issues_db_empty e :
  emergency_issues e [] =
    if is_empty e then []
    else [lit "Emergency contact mismatch: Excel=" ++ quoted e
            ++ lit " vs DB=" ++ quoted []].
Proof. unfold emergency_issues. by destruct e. Qed.

Lemma photo_issues_excel_empty d : photo_issues [] d = [].
Proof. done. Qed.

Lemma photo_issues_db_empty e :
  photo_issues e [] =
    if is_empty e then [] else [lit "Photo missing in DB: Excel has photo link"].
Proof. by destruct e. Qed.

End FieldRules.

(* ===================================================================== *)
(** * The badge index *)
(* ===================================================================== *)

Module Index.

Lemma index_step_cases m p :
  match extract_badge_number (p_qrToken p) with
  | Ok (Some n) => index_step m p = Ok (if n =? 0 then m else <[n := p]> m)
  | Ok None => index_step m p = Ok m
  | Raise e => index_step m p = Raise e
  end.
Proof.
  unfold index_step. destruct (extract_badge_number (p_qrToken p)) as [[n|]|e]; try done.
  simpl. by destruct (n =? 0).
Qed.

Lemma index_from_app m l1 l2 :
  index_from m (l1 ++ l2) = (m1 ← index_from m l1; index_from m1 l2).
Proof.
  revert m. induction l1 as [|p l1 IH]; intros m; [done|].
  simpl. destruct (index_step m p) as [m1|e]; [apply IH|done].
Qed.

(** A step changes the entry of [b] only to a record that derives
    the non-zero [b]. *)
Lemma index_step_lookup m p m1 b :
  index_step m p = Ok m1 ->
  m1 !! b = if derives b p && negb (b =? 0) then Some p else m !! b.
Proof.
  pose proof (index_step_cases m p) as H. unfold derives.
  destruct (extract_badge_number (p_qrToken p)) as [[n|]|e];
    rewrite H; intros [= <-]; try done.
  destruct (n =? b) eqn:E.
  - apply Z.eqb_eq in E as ->. destruct (b =? 0); [done|]. apply lookup_insert_eq.
  - apply Z.eqb_neq in E. simpl. destruct (n =? 0); [done|].
    by apply lookup_insert_ne.
Qed.

Lemma index_from_skips m ps m1 b :
  index_from m ps = Ok m1 ->
  Forall (fun q => derives b q = false) ps -> m1 !! b = m !! b.
Proof.
  revert m. induction ps as [|p ps IH]; intros m; simpl.
  - by intros [= <-].
  - destruct (index_step m p) as [m2|e] eqn:E; [|done]. simpl.
    intros H [Hp Hps]%Forall_cons. rewrite (IH _ H Hps).
    rewrite (index_step_lookup _ _ _ b E), Hp. done.
Qed.

Lemma index_from_zero m ps m1 :
  index_from m ps = Ok m1 -> m1 !! 0 = m !! 0.
Proof.
  revert m. induction ps as [|p ps IH]; intros m; simpl.
  - by intros [= <-].
  - destruct (index_step m p) as [m2|e] eqn:E; [|done]. simpl.
    intros H. rewrite (IH _ H), (index_step_lookup _ _ _ 0 E).
    by rewrite andb_false_r.
Qed.

Lemma index_from_lookup m ps m1 b p :
  index_from m ps = Ok m1 ->
  m1 !! b = Some p ->
  (b <> 0 /\ latest_deriving b ps p)
  \/ (Forall (fun q => derives b q && negb (b =? 0) = false) ps /\ m !! b = Some p).
Proof.
  revert m. induction ps as [|q ps IH]; intros m; simpl.
  - intros [= <-] H. right. by split.
  - destruct (index_step m q) as [m2|e] eqn:E; [|done]. simpl.
    intros Hidx Hb. destruct (IH _ Hidx Hb) as [[Hne (l1 & l2 & -> & Hd & Hafter)]|[Hnone Hm2]].
    + left. split; [done|]. by exists (q :: l1), l2.
    + rewrite (index_step_lookup _ _ _ b E) in Hm2.
      destruct (derives b q && negb (b =? 0)) eqn:Ed.
      * apply andb_true_iff in Ed as [Hd Hz]. apply negb_true_iff in Hz.
        injection Hm2 as ->. left. split; [by apply Z.eqb_neq|].
        exists [], ps. split; [done|]. split; [done|].
        eapply Forall_impl; [exact Hnone|]. simpl. intros x Hx.
        rewrite Hz in Hx. simpl in Hx. by rewrite andb_true_r in Hx.
      * right. split; [|done]. by constructor.
Qed.

Lemma index_from_latest m ps m1 b p :
  index_from m ps = Ok m1 -> b <> 0 -> latest_deriving b ps p -> m1 !! b = Some p.
Proof.
  intros Hidx Hb (l1 & l2 & -> & Hd & Hafter).
  rewrite index_from_app in Hidx.
  destruct (index_from m l1) as [m2|e]; [|done]. simpl in Hidx.
  destruct (index_step m2 p) as [m3|e] eqn:E; [|done]. simpl in Hidx.
  rewrite (index_from_skips _ _ _ b Hidx Hafter).
  rewrite (index_step_lookup _ _ _ b E), Hd.
  apply Z.eqb_neq in Hb. by rewrite Hb.
Qed.

Lemma index_from_raises m ps e :
  index_from m ps = Raise e ->
  exists p, p ∈ ps /\ extract_badge_number (p_qrToken p) = Raise e.
Proof.
  revert m. induction ps as [|q ps IH]; intros m; simpl; [done|].
  pose proof (index_step_cases m q) as H.
  destruct (index_step m q) as [m2|e'] eqn:E; simpl.
  - intros (p & Hp & Hr)%IH. exists p. split; [by right|done].
  - intros [= ->]. exists q. split; [by left|].
    destruct (extract_badge_number (p_qrToken q)) as [[n|]|e2]; congruence.
Qed.

(** A record whose token derives 0 leaves the index as it is. *)
Lemma index_step_zero m p :
  extract_badge_number (p_qrToken p) = Ok (Some 0) -> index_step m p = Ok m.
Proof. intros H. pose proof (index_step_cases m p) as H'. by rewrite H in H'. Qed.

Lemma index_from_drop_zero m ps1 p ps2 :
  extract_badge_number (p_qrToken p) = Ok (Some 0) ->
  index_from m (ps1 ++ p :: ps2) = index_from m (ps1 ++ ps2).
Proof.
  intros H. rewrite !index_from_app.
  destruct (index_from m ps1) as [m1|e]; [|done]. simpl.
  by rewrite (index_step_zero _ _ H).
Qed.

(** An entry that a later record of the list overwrites does not
    matter. *)
Lemma index_from_overwritten m b p ps :
  Exists (fun q => derives b q = true) ps ->
  b <> 0 ->
  index_from (<[b := p]> m) ps = index_from m ps.
Proof.
  intros Hex Hb. revert m.
  induction Hex as [q ps Hq|q ps Hex IH]; intros m; cbn [index_from];
    pose proof (index_step_cases m q) as H1;
    pose proof (index_step_cases (<[b := p]> m) q) as H2;
    unfold derives in *;
    destruct (extract_badge_number (p_qrToken q)) as [[n|]|e];
    rewrite H1, H2; unfold mbind, result_bind; try done.
  - apply Z.eqb_eq in Hq as ->. apply Z.eqb_neq in Hb. rewrite Hb.
    by rewrite insert_insert_eq.
  - destruct (n =? 0) eqn:Hn; [apply IH|].
    destruct (decide (n = b)) as [->|Hne]; [by rewrite insert_insert_eq|].
    rewrite insert_insert_ne by done. apply IH.
Qed.

(** A record that a later record with the same badge overwrites
    leaves the index as it is without that record. *)
Lemma index_drop_overwritten b before p after :
  derives b p = true ->
  Exists (fun q => derives b q = true) after ->
  index_by_badge (before ++ p :: after) = index_by_badge (before ++ after).
Proof.
  intros Hp Hex. unfold index_by_badge. rewrite !index_from_app.
  destruct (index_from ∅ before) as [m|e]; [|done].
  change (index_from m (p :: after) = index_from m after). cbn [index_from].
  pose proof (index_step_cases m p) as H. unfold derives in Hp.
  destruct (extract_badge_number (p_qrToken p)) as [[n|]|e]; try done.
  apply Z.eqb_eq in Hp as ->. rewrite H. unfold mbind, result_bind.
  destruct (b =? 0) eqn:Hb; [done|]. apply Z.eqb_neq in Hb.
  by apply index_from_overwritten.
Qed.

End Index.

(* ===================================================================== *)
(** * Programs with output *)
(* ===================================================================== *)

Module Runs.
Section Prog.
Context {E : Type}.

Lemma events_bind {A B} (m : prog E A) (k : A -> prog E B) :
  events (m ≫= k) =
    events m ++ match outcome m with
                | Ok a => events (k a)
                | Raise _ => []
                end.
Proof.
  destruct m as [out [a|e]]; unfold events, outcome; simpl.
  - by destruct (k a).
  - by rewrite app_nil_r.
Qed.

Lemma outcome_bind {A B} (m : prog E A) (k : A -> prog E B) :
  outcome (m ≫= k) =
    match outcome m with
    | Ok a => outcome (k a)
    | Raise e => Raise e
    end.
Proof.
  destruct m as [out [a|e]]; unfold events, outcome; simpl; [|done].
  by destruct (k a).
Qed.

Lemma outcome_emit (x : E) : outcome (emit x) = Ok tt.
Proof. done. Qed.

Lemma events_emit (x : E) : events (emit x) = [x].
Proof. done. Qed.

Lemma outcome_lift {A} (r : result A) : outcome (lift (E := E) r) = r.
Proof. done. Qed.

Lemma events_lift {A} (r : result A) : events (lift (E := E) r) = [].
Proof. done. Qed.

Lemma outcome_mret {A} (a : A) : outcome (mret a : prog E A) = Ok a.
Proof. done. Qed.

Lemma events_mret {A} (a : A) : events (mret a : prog E A) = [].
Proof. done. Qed.

Lemma outcome_pair {A} (out : list E) (r : result A) : outcome (out, r) = r.
Proof. done. Qed.

Lemma events_pair {A} (out : list E) (r : result A) : events (out, r) = out.
Proof. done. Qed.

Lemma outcome_for_each_emit {A} (f : A -> E) (l : list A) :
  outcome (for_each (fun x => emit (f x)) l) = Ok tt.
Proof.
  induction l as [|x l IH]; [done|]. cbn [for_each].
  by rewrite outcome_bind.
Qed.

Lemma events_for_each_emit {A} (f : A -> E) (l : list A) :
  events (for_each (fun x => emit (f x)) l) = map f l.
Proof.
  induction l as [|x l IH]; [done|]. cbn [for_each].
  rewrite events_bind, outcome_emit, IH. done.
Qed.

Lemma prog_eta {A} (m : prog E A) : m = (events m, outcome m).
Proof. by destruct m. Qed.
End Prog.

Ltac run_step :=
  first
    [ rewrite events_bind | rewrite outcome_bind
    | rewrite outcome_emit | rewrite events_emit
    | rewrite outcome_lift | rewrite events_lift
    | rewrite outcome_mret | rewrite events_mret
    | rewrite outcome_pair | rewrite events_pair
    | rewrite outcome_for_each_emit | rewrite events_for_each_emit ].
End Runs.

(* ===================================================================== *)
(** * The checks of verify_all_participants.py *)
(* ===================================================================== *)

Module Checks.
Import VerifyAll Runs.

Lemma elem_of_cohort b : b ∈ cohort <-> 1 <= b <= 417.
Proof. unfold cohort. rewrite elem_of_seqZ. lia. Qed.

Lemma elem_of_invalid_of by_badge f :
  f ∈ invalid_of by_badge <->
  exists badge p, 1 <= badge <= 417 /\ by_badge !! badge = Some p
                  /\ issues_of badge p <> []
                  /\ f = (badge, p_name p, issues_of badge p).
Proof.
  unfold invalid_of. rewrite list_elem_of_omap. split.
  - intros (badge & Hin & H). apply elem_of_cohort in Hin.
    destruct (by_badge !! badge) as [p|] eqn:E; [|done].
    destruct (issues_of badge p) eqn:Ei; [done|]. injection H as <-.
    exists badge, p. rewrite Ei. done.
  - intros (badge & p & Hin & E & Hne & ->). exists badge.
    split; [by apply elem_of_cohort|]. rewrite E.
    by destruct (issues_of badge p).
Qed.

Lemma flagged_intro by_badge badge p msg :
  by_badge !! badge = Some p -> 1 <= badge <= 417 ->
  msg ∈ issues_of badge p -> flagged by_badge badge p msg.
Proof.
  intros E Hin Hmsg. split; [|done]. apply elem_of_invalid_of.
  exists badge, p. split; [done|]. split; [done|]. split; [|done].
  intros Hnil. rewrite Hnil in Hmsg. by apply not_elem_of_nil in Hmsg.
Qed.

Lemma uuid_issues_bad u :
  length u <> 36%nat \/ count_char "-" u <> 4%nat ->
  uuid_issues (Some u) = [lit "invalid UUID: " ++ u].
Proof.
  intros H. unfold uuid_issues.
  destruct (length u =? 36)%nat eqn:El; [|by rewrite orb_true_r].
  destruct (count_char "-" u =? 4)%nat eqn:Ec; [|by rewrite orb_true_r].
  apply Nat.eqb_eq in El, Ec. lia.
Qed.

Lemma age_issues_out_of_range a n :
  int_of_age a = Ok n -> n < 1 \/ 120 < n ->
  age_issues (Some a) = [lit "invalid age: " ++ str_of_int n].
Proof.
  intros E H. unfold age_issues. rewrite E.
  destruct (n <? 1) eqn:E1; [done|]. destruct (n >? 120) eqn:E2; [done|]. lia.
Qed.

Lemma age_issues_in_range a n :
  int_of_age a = Ok n -> 1 <= n <= 120 -> age_issues (Some a) = [].
Proof.
  intros E H. unfold age_issues. rewrite E.
  destruct (n <? 1) eqn:E1; [lia|]. destruct (n >? 120) eqn:E2; [lia|done].
Qed.

Lemma age_issues_non_numeric a e :
  int_of_age a = Raise e ->
  age_issues (Some a) = [lit "non-numeric age: " ++ str_of_age a].
Proof. intros E. unfold age_issues. by rewrite E. Qed.

(** ** Order of the finding lists *)

Lemma seqZ_strictly_ascending m n : StronglySorted Z.lt (seqZ m n).
Proof.
  destruct (decide (n <= 0)) as [Hn|Hn]; [rewrite seqZ_nil by done; constructor|].
  rewrite <- (Z2Nat.id n) by lia. generalize (Z.to_nat n) as k. clear. intros k.
  revert m. induction k as [|k IH]; intros m.
  - rewrite seqZ_nil by done. constructor.
  - rewrite seqZ_cons by lia. constructor.
    + replace (Z.pred (Z.of_nat (S k))) with (Z.of_nat k) by lia. apply IH.
    + apply Forall_forall. intros x. rewrite elem_of_seqZ. lia.
Qed.

Lemma filter_strictly_ascending (keep : Z -> bool) l :
  StronglySorted Z.lt l -> StronglySorted Z.lt (List.filter keep l).
Proof.
  induction 1 as [|x l Hs IH Hx]; simpl; [constructor|].
  destruct (keep x); [|done]. constructor; [done|].
  apply List.Forall_forall. intros y [Hy _]%filter_In.
  by apply (proj1 (List.Forall_forall _ _) Hx).
Qed.

Lemma omap_strictly_ascending {A} (f : Z -> option A) (key : A -> Z) l :
  (forall b x, f b = Some x -> key x = b) ->
  StronglySorted Z.lt l -> StronglySorted Z.lt (map key (omap f l)).
Proof.
  intros Hkey. induction 1 as [|b l Hs IH Hb]; simpl; [constructor|].
  destruct (f b) as [x|] eqn:E; [|done]. simpl. constructor; [done|].
  rewrite (Hkey _ _ E). apply Forall_forall. intros y Hy.
  apply list_elem_of_fmap in Hy as (z & -> & Hz).
  apply list_elem_of_omap in Hz as (b' & Hb' & E').
  rewrite (Hkey _ _ E'). by apply (proj1 (Forall_forall _ _) Hb).
Qed.

Lemma missing_badges_ascending by_badge :
  StronglySorted Z.lt (missing_badges_of by_badge).
Proof. apply filter_strictly_ascending, seqZ_strictly_ascending. Qed.

Lemma incomplete_ascending by_badge :
  StronglySorted Z.lt (map finding_badge (incomplete_of by_badge)).
Proof.
  apply omap_strictly_ascending; [|apply seqZ_strictly_ascending].
  intros b x. destruct (by_badge !! b) as [p|]; [|done].
  cbv zeta. destruct (is_empty (missing_fields_of p)); [done|]. by intros [= <-].
Qed.

Lemma invalid_ascending by_badge :
  StronglySorted Z.lt (map finding_badge (invalid_of by_badge)).
Proof.
  apply omap_strictly_ascending; [|apply seqZ_strictly_ascending].
  intros b x. destruct (by_badge !! b) as [p|]; [|done].
  cbv zeta. destruct (is_empty (issues_of b p)); [done|]. by intros [= <-].
Qed.

(** ** The summary block *)

Lemma summary_outcome mb fb inc inv :
  outcome (summary mb fb inc inv) =
    Ok (is_empty mb
        && (if files_truthy fb
            then (length (missing_files_of (default [] fb)) =? 0)%nat
            else true)
        && is_empty inc && is_empty inv).
Proof.
  unfold summary.
  destruct mb, (files_truthy fb),
    (length (missing_files_of (default [] fb)) =? 0)%nat, inc, inv; reflexivity.
Qed.

Lemma summary_verdict_printed mb fb inc inv b :
  outcome (summary mb fb inc inv) = Ok b ->
  Print (if b then AllVerificationsPassed else SomeVerificationsFailed)
    ∈ events (summary mb fb inc inv).
Proof.
  unfold summary.
  destruct mb, (files_truthy fb),
    (length (missing_files_of (default [] fb)) =? 0)%nat, inc, inv;
    intros [= <-]; vm_compute; set_solver.
Qed.

End Checks.

(* ===================================================================== *)
(** * Runs of verify_all_participants.py *)
(* ===================================================================== *)

Module AllRuns.
Import VerifyAll Runs Checks.

Ltac run_with H1 H2 tac :=
  unfold print;
  repeat first
    [ run_step | rewrite H1 | rewrite H2 | tac | progress cbn beta iota ].

Lemma badge_phase_outcome m : outcome (badge_phase m) = Ok tt.
Proof.
  unfold badge_phase, print. run_step. run_step.
  by destruct (negb (is_empty (missing_badges_of m))).
Qed.

Lemma completeness_phase_outcome m : outcome (completeness_phase m) = Ok tt.
Proof.
  unfold completeness_phase, print. run_step. run_step. cbv zeta.
  destruct (negb (is_empty (incomplete_of m))); [|done].
  by repeat run_step.
Qed.

Lemma validity_phase_outcome m : outcome (validity_phase m) = Ok tt.
Proof.
  unfold validity_phase, print. run_step. run_step. cbv zeta.
  destruct (negb (is_empty (invalid_of m))); [|done].
  by repeat run_step.
Qed.

Lemma file_phase_no_directory :
  file_phase None =
    ([Print (Heading "2. QR CODE FILE VERIFICATION");
      Print (Warning (lit "QR codes directory not found"))], Ok None).
Proof. reflexivity. Qed.

Ltac phase_step :=
  first
    [ rewrite badge_phase_outcome | rewrite completeness_phase_outcome
    | rewrite validity_phase_outcome | rewrite summary_outcome ].

(** A run of the checks ends normally exactly when the index is
    built, the file check returns and the sample section finds a
    [uuid] on the records it prints; its output and its report are
    then as follows. *)
Lemma run_checks_reached ps dir m fb :
  index_by_badge ps = Ok m ->
  outcome (file_phase dir) = Ok fb ->
  outcome (sample_phase m) = Ok tt ->
  run_checks ps dir =
    ([Print (Heading "COMPREHENSIVE PARTICIPANT VERIFICATION REPORT");
      Print (TotalParticipants (length ps))]
       ++ events (badge_phase m)
       ++ events (file_phase dir)
       ++ events (completeness_phase m)
       ++ events (validity_phase m)
       ++ events (sample_phase m)
       ++ [Print (Heading "VERIFICATION SUMMARY")]
       ++ events (summary (missing_badges_of m) fb (incomplete_of m) (invalid_of m)),
     Ok {| total_participants := length ps;
           missing_badges := missing_badges_of m;
           incomplete_data := incomplete_of m;
           invalid_data := invalid_of m;
           all_passed :=
             is_empty (missing_badges_of m)
             && (if files_truthy fb
                 then (length (missing_files_of (default [] fb)) =? 0)%nat
                 else true)
             && is_empty (incomplete_of m)
             && is_empty (invalid_of m) |}).
Proof.
  intros Hidx Hfile Hsample. rewrite (prog_eta (run_checks ps dir)).
  unfold run_checks. f_equal.
  - run_with Hidx Hsample ltac:(first [phase_step | rewrite Hfile]).
    by rewrite app_nil_r.
  - run_with Hidx Hsample ltac:(first [phase_step | rewrite Hfile]). done.
Qed.

Lemma run_checks_outcome ps dir :
  outcome (run_checks ps dir) =
    (m ← index_by_badge ps;
     fb ← outcome (file_phase dir);
     _ ← outcome (sample_phase m);
     outcome (summary (missing_badges_of m) fb (incomplete_of m) (invalid_of m))
       ≫= fun all_passed =>
            Ok {| total_participants := length ps;
                  missing_badges := missing_badges_of m;
                  incomplete_data := incomplete_of m;
                  invalid_data := invalid_of m;
                  all_passed := all_passed |}).
Proof.
  unfold run_checks.
  destruct (index_by_badge ps) as [m|e] eqn:Hidx.
  2:{ by run_with Hidx Hidx idtac. }
  destruct (outcome (file_phase dir)) as [fb|e] eqn:Hfile.
  2:{ by run_with Hidx Hfile phase_step. }
  destruct (outcome (sample_phase m)) as [[]|e] eqn:Hsample;
    run_with Hidx Hfile ltac:(first [phase_step | rewrite Hsample]);
    unfold mbind, result_bind; by rewrite Hsample, ?summary_outcome.
Qed.

Lemma run_checks_ok_inv ps dir r :
  outcome (run_checks ps dir) = Ok r ->
  exists m fb,
    index_by_badge ps = Ok m /\ outcome (file_phase dir) = Ok fb
    /\ outcome (sample_phase m) = Ok tt.
Proof.
  rewrite run_checks_outcome. unfold mbind, result_bind.
  destruct (index_by_badge ps) as [m|e]; [|done].
  destruct (outcome (file_phase dir)) as [fb|e]; [|done].
  destruct (outcome (sample_phase m)) as [[]|e] eqn:Hsample; [|done].
  intros _. by exists m, fb.
Qed.

Lemma file_phase_no_directory_outcome : outcome (file_phase None) = Ok None.
Proof. done. Qed.

(** The report is written after the checks; a failure to write it
    is raised. *)
Lemma main_after_checks ps dir can_write evs r :
  run_checks ps dir = (evs, Ok r) ->
  main ps dir can_write =
    (evs ++ (if can_write then [WriteReport r; Print ReportSaved] else []),
     if can_write then Ok tt else Raise OSError).
Proof.
  intros H. unfold main. rewrite H. destruct can_write; [done|].
  cbn. by rewrite app_nil_r.
Qed.

(** How a run ends: with what the index construction, the file check
    or the sample section raises, else with what the write does. *)
Lemma main_outcome ps dir can_write :
  outcome (main ps dir can_write) =
    (m ← index_by_badge ps;
     _ ← outcome (file_phase dir);
     _ ← outcome (sample_phase m);
     if can_write then Ok tt else Raise OSError).
Proof.
  unfold main. rewrite outcome_bind, run_checks_outcome.
  unfold mbind, result_bind.
  destruct (index_by_badge ps) as [m|e]; [|done].
  destruct (outcome (file_phase dir)) as [fb|e]; [|done].
  destruct (outcome (sample_phase m)) as [[]|e]; [|done].
  rewrite summary_outcome. by destruct can_write.
Qed.

Lemma main_checks_raise ps dir can_write evs e :
  run_checks ps dir = (evs, Raise e) -> main ps dir can_write = (evs, Raise e).
Proof. intros H. unfold main. by rewrite H. Qed.

End AllRuns.

(* ===================================================================== *)
(** * Runs of verify_final_data.py *)
(* ===================================================================== *)

Module FinalRuns.
Import VerifyFinal Runs.

Section WithFloat.
Variable f : str -> option Z.

(** A row appends at most one entry, under the row's own badge. *)
Lemma compare_row_appends m r ds k ds' k' :
  compare_row f m r (ds, k) = Ok (ds', k') ->
  exists new, ds' = ds ++ new
              /\ map d_badge new `sublist_of` option_list (row_badge r).
Proof.
  unfold compare_row, row_badge.
  destruct (badge_of (r_badge r)) as [[b|]|e]; simpl; [| |done].
  - destruct (m !! b) as [p|].
    + destruct (negb (is_empty (field_issues f r p))); intros [= <- <-].
      * eexists [_]. split; [done|]. simpl. by constructor.
      * exists []. rewrite app_nil_r. split; [done|]. apply sublist_nil_l.
    + intros [= <- <-]. eexists [_]. split; [done|]. simpl. by constructor.
  - intros [= <- <-]. exists []. rewrite app_nil_r. split; [done|].
    apply sublist_nil_l.
Qed.

Lemma compare_rows_appends m rows ds k ds' k' :
  compare_rows f m rows (ds, k) = Ok (ds', k') ->
  exists new, ds' = ds ++ new
              /\ map d_badge new `sublist_of` omap row_badge rows.
Proof.
  revert ds k. induction rows as [|r rows IH]; intros ds k; cbn [compare_rows].
  - intros [= <- <-]. exists []. by rewrite app_nil_r.
  - destruct (compare_row f m r (ds, k)) as [[ds1 k1]|e] eqn:E; [|done].
    unfold mbind, result_bind. cbn [omap list_omap]. intros H. apply compare_row_appends in E as (new1 & -> & Hsub1).
    apply IH in H as (new2 & -> & Hsub2).
    exists (new1 ++ new2). rewrite app_assoc. split; [done|].
    rewrite map_app.
    replace (match row_badge r with
             | Some y => y :: omap row_badge rows
             | None => omap row_badge rows
             end) with (option_list (row_badge r) ++ omap row_badge rows)
      by by destruct (row_badge r).
    by apply sublist_app.
Qed.

Lemma compare_data_outcome rows db :
  outcome (compare_data f rows db) =
    (m ← index_by_badge db; compare_rows f m rows ([], O)).
Proof.
  unfold compare_data. destruct (index_by_badge db) as [m|e]; [|done].
  cbn. by destruct (compare_rows f m rows ([], O)).
Qed.

Lemma compare_data_row_order rows db ds k :
  outcome (compare_data f rows db) = Ok (ds, k) ->
  map d_badge ds `sublist_of` omap row_badge rows.
Proof.
  rewrite compare_data_outcome. destruct (index_by_badge db) as [m|e]; [|done].
  simpl. intros (new & -> & H)%compare_rows_appends. done.
Qed.

Lemma run_compare_reached rows db ds k :
  outcome (compare_data f rows db) = Ok (ds, k) ->
  run_compare f rows db =
    ([Print (Heading "FINAL DATA VERIFICATION REPORT");
      Print (LoadedRows (length rows));
      Print (LoadedParticipants (length db))]
       ++ events (compare_data f rows db)
       ++ [Print (Heading "VERIFICATION RESULTS");
           Print (MatchingRecords k);
           Print (DiscrepanciesFound (length ds))]
       ++ (if is_empty ds then []
           else Print (Heading "DISCREPANCIES DETAIL:")
                  :: map (fun d => Print (DiscrepancyDetail d)) ds),
     Ok (ds, {| total_excel_records := length rows;
                total_db_records := length db;
                matches := k;
                discrepancies_count := length ds;
                discrepancies := ds |})).
Proof.
  intros H. rewrite (prog_eta (run_compare f rows db)).
  unfold run_compare, when, print. f_equal.
  - repeat first [run_step | rewrite H | progress cbn beta iota].
    destruct ds as [|d ds]; cbn [is_empty negb];
      repeat first [run_step | progress cbn beta iota];
      by rewrite ?app_nil_r.
  - repeat first [run_step | rewrite H | progress cbn beta iota].
    destruct ds as [|d ds]; cbn [is_empty negb];
      by repeat first [run_step | progress cbn beta iota].
Qed.

Lemma run_compare_raise rows db e :
  outcome (compare_data f rows db) = Raise e ->
  outcome (run_compare f rows db) = Raise e.
Proof.
  intros H. unfold run_compare, print.
  by repeat first [run_step | rewrite H | progress cbn beta iota].
Qed.

(** The report is written after the comparison; a failure to
    write it is raised. *)
Lemma main_after_compare rows db can_write evs ds r :
  run_compare f rows db = (evs, Ok (ds, r)) ->
  main f rows db can_write =
    (evs ++ (if can_write then [WriteReport r; Print ReportSaved] else []),
     if can_write then Ok ds else Raise OSError).
Proof.
  intros H. unfold main. rewrite H. destruct can_write; [done|].
  cbn. by rewrite app_nil_r.
Qed.
End WithFloat.

Lemma sublist_strongly_sorted {A} (R : relation A) (l1 l2 : list A) :
  l1 `sublist_of` l2 -> StronglySorted R l2 -> StronglySorted R l1.
Proof.
  induction 1 as [|x l1 l2 Hsub IH|x l1 l2 Hsub IH]; [done| |].
  - intros [Hx Hs]%StronglySorted_cons. apply StronglySorted_cons.
    split; [|by apply IH]. eapply Forall_forall. intros y Hy.
    eapply (proj1 (Forall_forall _ _) Hx). by eapply elem_of_sublist.
  - intros [_ Hs]%StronglySorted_cons. by apply IH.
Qed.

End FinalRuns.

(* ===================================================================== *)
(** * Decimal text of an integer *)
(* ===================================================================== *)

Module IntFacts.

Lemma pretty_N_char_digit n :
  (n < 10)%N ->
  digit (pretty_N_char n)
  /\ digit_val (pretty_N_char n) = Some (Z.of_N n)
  /\ eqc (pretty_N_char n) underscore = false.
Proof.
  intros Hn. rewrite <- (N2Nat.id n).
  assert (N.to_nat n < 10)%nat as Hk by lia.
  revert Hk. generalize (N.to_nat n). intros k Hk.
  do 10 (destruct k as [|k]; [by vm_compute|]). lia.
Qed.

(** The characters that [pretty_N_go x] puts in front of [s] are the
    decimal digits of [x]. *)
Lemma pretty_N_go_digits x s :
  exists ds,
    list_ascii_of_string (pretty_N_go x s) = ds ++ list_ascii_of_string s
    /\ Forall digit ds
    /\ ((0 < x)%N -> ds <> [])
    /\ forall acc t,
         parse_digits acc false (ds ++ t)
         = parse_digits (acc * 10 ^ Z.of_nat (length ds) + Z.of_N x) false t.
Proof.
  revert s. induction (N.lt_wf_0 x) as [x _ IH]; intros s.
  assert (x = 0 \/ 0 < x)%N as [->|Hx] by lia.
  - exists []. rewrite pretty_N_go_0. split; [done|]. split; [constructor|].
    split; [lia|]. intros acc t. simpl. f_equal. lia.
  - rewrite pretty_N_go_step by done.
    destruct (IH (x `div` 10)%N (N.div_lt x 10 Hx eq_refl)
                (String (pretty_N_char (x `mod` 10)) s))
      as (ds & Heq & Hds & _ & Hparse).
    destruct (pretty_N_char_digit (x `mod` 10)%N) as (Hc & Hval & Hus);
      [by apply N.mod_lt|].
    exists (ds ++ [pretty_N_char (x `mod` 10)]).
    split; [by rewrite Heq, <- app_assoc|].
    split; [apply Forall_app; split; [done|by constructor]|].
    split; [by destruct ds|].
    intros acc t. rewrite <- app_assoc, Hparse. cbn [app parse_digits].
    rewrite Hus, Hval. f_equal. rewrite length_app, Nat2Z.inj_add, Z.pow_add_r by lia.
    cbn [length]. change (10 ^ Z.of_nat 1) with 10.
    rewrite (N.div_mod x 10) at 3 by done.
    rewrite N2Z.inj_add, N2Z.inj_mul. change (Z.of_N 10) with 10. lia.
Qed.

Lemma digit_not_c_space c : digit c -> c_isspace c = false.
Proof. unfold digit. by_cases_on_char c. Qed.

Lemma digit_not_sign c : digit c -> eqc c "-" = false /\ eqc c "+" = false.
Proof. unfold digit. by_cases_on_char c. Qed.

Lemma digit_not_underscore c : digit c -> eqc c underscore = false.
Proof. unfold digit. by_cases_on_char c. Qed.

Lemma digit_has_value c : digit c -> exists d, digit_val c = Some d.
Proof. unfold digit, digit_val. intros ->. by eexists. Qed.

Lemma strip_by_fixed_no_space sp s :
  Forall (fun c => sp c = false) s -> strip_by sp s = s.
Proof.
  intros H. unfold strip_by.
  assert (lstrip_by sp s = s) as -> by (destruct H as [|c s Hc _]; simpl; [done|by rewrite Hc]).
  induction H as [|c s Hc _ IH]; [done|].
  by rewrite rstrip_by_cons, IH, Hc, andb_false_r.
Qed.

Lemma digit_count_digits ds : Forall digit ds -> digit_count ds = length ds.
Proof.
  unfold digit_count. induction 1 as [|c ds Hc _ IH]; [done|].
  rewrite filter_cons_True by done. simpl. by rewrite IH.
Qed.

Lemma parse_nat_digits ds :
  ds <> [] -> Forall digit ds -> parse_nat ds = parse_digits 0 false ds.
Proof.
  intros Hne H. destruct H as [|c ds' Hc _]; [done|]. cbn [parse_nat parse_digits].
  rewrite (digit_not_underscore c Hc).
  destruct (digit_has_value c Hc) as (d & ->). done.
Qed.

(** [int] reads the decimal digits of a natural number back. *)
Lemma int_of_str_pretty_N x :
  (0 < x)%N ->
  exists ds,
    list_ascii_of_string (pretty_N_go x "") = ds
    /\ Forall digit ds /\ ds <> [] /\ parse_nat ds = Some (Z.of_N x).
Proof.
  intros Hx. destruct (pretty_N_go_digits x "") as (ds & Heq & Hds & Hne & Hparse).
  exists ds. cbn [list_ascii_of_string] in Heq. rewrite app_nil_r in Heq.
  split; [done|]. split; [done|]. split; [by apply Hne|].
  rewrite parse_nat_digits by auto.
  specialize (Hparse 0 []). rewrite app_nil_r in Hparse. rewrite Hparse.
  cbn [parse_digits]. f_equal.
Qed.

Lemma str_of_int_pos p :
  exists ds,
    str_of_int (Z.pos p) = ds /\ Forall digit ds /\ ds <> []
    /\ parse_nat ds = Some (Z.pos p).
Proof.
  destruct (int_of_str_pretty_N (N.pos p) eq_refl) as (ds & Heq & Hds & Hne & Hp).
  exists ds. split; [|done]. unfold str_of_int, pretty, pretty_Z, pretty, pretty_positive.
  unfold pretty, pretty_N. by rewrite decide_False by done.
Qed.

Lemma int_of_str_digits ds n :
  Forall digit ds -> ds <> [] -> parse_nat ds = Some n ->
  (length ds <= int_max_str_digits)%nat ->
  int_of_str ds = Ok n /\ int_of_str ("-"%char :: ds) = Ok (- n).
Proof.
  intros Hds Hne Hp Hlen.
  assert (Forall (fun c => c_isspace c = false) ds) as Hsp
    by (eapply Forall_impl; [exact Hds|apply digit_not_c_space]).
  unfold int_of_str. split.
  - rewrite strip_by_fixed_no_space by done.
    rewrite digit_count_digits by done.
    destruct (Nat.ltb_spec int_max_str_digits (length ds)); [lia|].
    destruct Hds as [|c ds Hc Hds]; [done|]. unfold parse_int.
    destruct (digit_not_sign c Hc) as [-> ->]. by rewrite Hp.
  - rewrite strip_by_fixed_no_space by (by constructor).
    unfold digit_count. rewrite filter_cons_False by done.
    fold (digit_count ds). rewrite digit_count_digits by done.
    destruct (Nat.ltb_spec int_max_str_digits (length ds)); [lia|].
    unfold parse_int. rewrite eqc_refl, Hp. done.
Qed.

(** [int(str(n)) == n], for a number within the digit limit of the
    conversion. *)
Lemma int_of_str_str_of_int n :
  (length (str_of_int n) <= int_max_str_digits)%nat ->
  int_of_str (str_of_int n) = Ok n.
Proof.
  destruct n as [|p|p]; [done| |].
  - destruct (str_of_int_pos p) as (ds & -> & Hds & Hne & Hp). intros Hlen.
    by apply int_of_str_digits.
  - destruct (str_of_int_pos p) as (ds & Heq & Hds & Hne & Hp).
    assert (str_of_int (Z.neg p) = "-"%char :: ds) as ->.
    { rewrite <- Heq. reflexivity. }
    intros Hlen. cbn [length] in Hlen.
    apply (int_of_str_digits ds (Z.pos p)); [done|done|done|lia].
Qed.

Lemma startswith_app p s : startswith p (p ++ s) = true.
Proof. induction p as [|c p IH]; [done|]. simpl. by rewrite eqc_refl. Qed.

Lemma contains_app p s : contains p (p ++ s) = true.
Proof.
  destruct p as [|c p]; [by destruct s|].
  cbn [app contains]. change (c :: p ++ s) with ((c :: p) ++ s).
  by rewrite startswith_app.
Qed.

Lemma contains_absent_head c p s :
  Forall (fun x => eqc c x = false) s -> contains (c :: p) s = false.
Proof.
  induction 1 as [|x s Hx _ IH]; [done|]. cbn [contains startswith].
  by rewrite Hx, IH.
Qed.

(** The decimal text of an integer has no ['P'] in it. *)
Lemma str_of_int_no_P n : Forall (fun x => eqc "P" x = false) (str_of_int n).
Proof.
  assert (forall ds, Forall digit ds -> Forall (fun x => eqc "P" x = false) ds) as H.
  { intros ds Hds. eapply Forall_impl; [exact Hds|].
    intros c. unfold digit. by_cases_on_char c. }
  destruct n as [|p|p]; [by repeat constructor| |].
  - destruct (str_of_int_pos p) as (ds & -> & Hds & _). by apply H.
  - destruct (str_of_int_pos p) as (ds & Heq & Hds & _).
    assert (str_of_int (Z.neg p) = "-"%char :: ds) as ->
      by (rewrite <- Heq; reflexivity).
    constructor; [done|by apply H].
Qed.

End IntFacts.

(* ===================================================================== *)
(** * Key derivation *)
(* ===================================================================== *)

Section KeyDerivation.

Lemma extract_badge_number_null : extract_badge_number None = Ok None.
Proof. done. Qed.

Lemma extract_badge_number_empty : extract_badge_number (Some []) = Ok None.
Proof. done. Qed.

Lemma extract_badge_number_no_prefix tok :
  contains PREFIX tok = false -> extract_badge_number (Some tok) = Ok None.
Proof. intros H. unfold extract_badge_number. by rewrite H, andb_false_r. Qed.

(** With the prefix present the result is that of [int] on the
    token without its prefix. *)
Lemma extract_badge_number_prefix tok :
  contains PREFIX tok = true ->
  extract_badge_number (Some tok) =
    match int_of_str (replace PREFIX [] tok) with
    | Ok n => Ok (Some n)
    | Raise e => Raise e
    end.
Proof.
  intros H. unfold extract_badge_number. rewrite H.
  destruct tok; [done|]. done.
Qed.

Lemma int_of_str_raises_value_error s e : int_of_str s = Raise e -> e = ValueError.
Proof.
  unfold int_of_str. destruct (_ <? _)%nat; [by intros [= <-]|].
  destruct (parse_int _); [done|by intros [= <-]].
Qed.

(** The function returns a number, [None], or raises [ValueError]. *)
Lemma extract_badge_number_results tok :
  (exists n, extract_badge_number tok = Ok (Some n))
  \/ extract_badge_number tok = Ok None
  \/ extract_badge_number tok = Raise ValueError.
Proof.
  destruct tok as [tok|]; [|by right; left].
  destruct (contains PREFIX tok) eqn:E.
  - rewrite extract_badge_number_prefix by done.
    destruct (int_of_str _) as [n|e] eqn:Ei; [left; by exists n|].
    right; right. by rewrite (int_of_str_raises_value_error _ _ Ei).
  - right; left. by apply extract_badge_number_no_prefix.
Qed.

Example extract_badge_number_42 :
  extract_badge_number (Some (lit "PALITANA_YATRA_42")) = Ok (Some 42).
Proof. reflexivity. Qed.

(** Every token of the cohort, as the validity check expects it,
    derives its badge. *)
Lemma extract_badge_number_cohort b :
  1 <= b <= 417 ->
  extract_badge_number (Some (VerifyAll.expected_token b)) = Ok (Some b).
Proof.
  intros Hb. apply Checks.elem_of_cohort, list_elem_of_In in Hb.
  set (check := fun b => match extract_badge_number
                                 (Some (VerifyAll.expected_token b)) with
                         | Ok (Some n) => n =? b
                         | _ => false
                         end).
  assert (forallb check cohort = true) as H by (vm_compute; reflexivity).
  pose proof (proj1 (forallb_forall check cohort) H b Hb) as Hc.
  unfold check in Hc.
  destruct (extract_badge_number _) as [[n|]|]; try done.
  by apply Z.eqb_eq in Hc as ->.
Qed.

(** A well-formed token gives its number back: the prefix followed by
    the decimal text of an integer derives that integer. *)
Lemma extract_badge_number_round_trip n :
  (length (str_of_int n) <= int_max_str_digits)%nat ->
  extract_badge_number (Some (PREFIX ++ str_of_int n)) = Ok (Some n).
Proof.
  intros Hlen. rewrite extract_badge_number_prefix by apply IntFacts.contains_app.
  assert (replace PREFIX [] (PREFIX ++ str_of_int n) = str_of_int n) as ->.
  { change (PREFIX ++ str_of_int n)
      with ("P"%char :: (lit "ALITANA_YATRA_" ++ str_of_int n)).
    rewrite replace_cons.
    change ("P"%char :: (lit "ALITANA_YATRA_" ++ str_of_int n))
      with (PREFIX ++ str_of_int n).
    rewrite IntFacts.startswith_app.
    change (drop (Nat.pred (length PREFIX)) (lit "ALITANA_YATRA_" ++ str_of_int n))
      with (str_of_int n).
    apply replace_absent, IntFacts.contains_absent_head, IntFacts.str_of_int_no_P. }
  by rewrite IntFacts.int_of_str_str_of_int.
Qed.

(** A record with such a token ends the run while the index is
    built. *)
Example bad_token_aborts_run :
  let p := {| p_id := 1; p_uuid := Some sample_uuid; p_name := Some (lit "Asha");
              p_mobile := None; p_qrToken := Some (lit "PALITANA_YATRA_abc");
              p_emergencyContact := None; p_photoUri := None;
              p_bloodGroup := None; p_age := None |} in
  index_by_badge [p] = Raise ValueError
  /\ outcome (VerifyAll.main [p] None true) = Raise ValueError.
Proof. split; reflexivity. Qed.

(** C1 (the code at the failing input): for a token that contains
    the prefix and whose remaining characters are not an integer
    literal, [extract_badge_number] raises [ValueError]; it does not
    return [None]. *)
Theorem extract_badge_number_raises_on_bad_suffix :
  extract_badge_number (Some (lit "PALITANA_YATRA_abc")) = Raise ValueError
  /\ extract_badge_number (Some (lit "PALITANA_YATRA_")) = Raise ValueError
  /\ extract_badge_number (Some (lit "xPALITANA_YATRA_42")) = Raise ValueError.
Proof. repeat split; reflexivity. Qed.

End KeyDerivation.

(* ===================================================================== *)
(** * The overall verdict *)
(* ===================================================================== *)

Section Verdict.
Import VerifyAll.

(** C2 (counterexample): the database holds a valid record for each
    of the 417 badges and the QR-code directory does not exist, so
    every expected file is absent; the run prints the warning and
    writes a report whose [all_passed] is true. *)
Lemma all_passed_without_directory :
  Print (Warning (lit "QR codes directory not found"))
    ∈ events (main full_cohort_db None true)
  /\ all_passed <$> written all_report (main full_cohort_db None true) = Some true.
Proof.
  split.
  - apply (list_elem_of_lookup_2 _ 5%nat). vm_compute. reflexivity.
  - vm_compute. reflexivity.
Qed.

(** The same verdict when the directory exists and holds no file:
    section 2 lists all 417 files as missing, the summary says
    nothing about files. *)
Example all_passed_with_empty_directory :
  all_passed <$> written all_report (main full_cohort_db (Some []) true) = Some true.
Proof. vm_compute. reflexivity. Qed.

(** C2 (amended): [all_passed] is true exactly when the lists of
    missing badges, incomplete records and invalid records are empty
    and, for a non-empty file listing, no expected file is missing
    from it; when the directory was not found the file check does
    not enter the verdict. *)
Theorem all_passed_characterised :
  forall (missing_badges : list Z) (incomplete invalid : list finding),
    outcome (summary missing_badges None incomplete invalid)
    = Ok (is_empty missing_badges && is_empty incomplete && is_empty invalid)
    /\ forall b file_badges,
         outcome (summary missing_badges (Some (b :: file_badges)) incomplete invalid)
         = Ok (is_empty missing_badges
               && is_empty (missing_files_of (b :: file_badges))
               && is_empty incomplete && is_empty invalid).
Proof.
  intros mb inc inv. split.
  - rewrite Checks.summary_outcome. cbn [files_truthy]. by rewrite andb_true_r.
  - intros b fb. rewrite Checks.summary_outcome. cbn [files_truthy default].
    unfold id. by destruct (missing_files_of (b :: fb)).
Qed.

(** The verdict of the summary is the one the report carries. *)
Lemma report_carries_verdict ps dir evs r :
  run_checks ps dir = (evs, Ok r) ->
  exists m fb,
    index_by_badge ps = Ok m /\ outcome (file_phase dir) = Ok fb
    /\ outcome (summary (missing_badges_of m) fb (incomplete_of m) (invalid_of m))
       = Ok (all_passed r).
Proof.
  intros H. assert (outcome (run_checks ps dir) = Ok r) as Ho by by rewrite H.
  destruct (AllRuns.run_checks_ok_inv _ _ _ Ho) as (m & fb & Hidx & Hfile & Hsample).
  exists m, fb. split; [done|]. split; [done|].
  rewrite (AllRuns.run_checks_reached ps dir m fb Hidx Hfile Hsample) in H.
  injection H as _ Hr. subst r. apply Checks.summary_outcome.
Qed.

End Verdict.

(* ===================================================================== *)
(** * Normalizer idempotence *)
(* ===================================================================== *)

Section Idempotence.
Import VerifyFinal.

(** C4 (counterexample): ['+9+911'] normalises to ['+91'], which
    normalises to the empty string. *)
Lemma normalize_phone_not_idempotent :
  normalize_phone (Str (lit "+9+911")) = lit "+91"
  /\ normalize_phone (Str (lit "+91")) = []
  /\ normalize_phone (Str (normalize_phone (Str (lit "+9+911"))))
     <> normalize_phone (Str (lit "+9+911")).
Proof. split; [reflexivity|]. split; [reflexivity|]. vm_compute. discriminate. Qed.

Example normalize_phone_usual :
  normalize_phone (Str (lit "+91 98765-43210")) = lit "9876543210"
  /\ normalize_phone (Int 9876543210) = lit "9876543210"
  /\ phone_stable (lit "9876543210") = true
  /\ normalize_phone (Str (lit "9876543210")) = lit "9876543210".
Proof. repeat split; reflexivity. Qed.

(** C4 (amended): the name and blood-group normalizers are
    idempotent on every input; the phone normalizer gives the same
    text again exactly when its first result has no whitespace at
    either end and no ['+91'] in it. *)
Theorem normalizers_idempotence :
  (forall x, normalize_name (Str (normalize_name x)) = normalize_name x)
  /\ (forall x, normalize_blood_group (Str (normalize_blood_group x))
                = normalize_blood_group x)
  /\ (forall x, bool_decide (normalize_phone (Str (normalize_phone x))
                             = normalize_phone x)
                = phone_stable (normalize_phone x)).
Proof.
  split; [apply Normalizers.normalize_name_idem|].
  split; [apply Normalizers.normalize_blood_group_idem|].
  apply Normalizers.normalize_phone_again.
Qed.

End Idempotence.


(* ===================================================================== *)
(** * One-sided tolerance of the cross-source comparison *)
(* ===================================================================== *)

Section FieldTolerance.
Import VerifyFinal FieldRules.

(** C3 (counterexample): the roster row of badge 1 has an empty name
    cell and the database record of badge 1 is named Asha; a name
    mismatch is reported. *)
Lemma empty_roster_name_is_reported :
  field_issues no_age (roster_row NaN 1) (valid_participant 1)
  = [lit "Name mismatch: Excel='' vs DB='Asha'"]
  /\ outcome (compare_data no_age [roster_row NaN 1] [valid_participant 1])
     = Ok ([{| d_badge := 1;
               d_issue := DATA_MISMATCH;
               d_excel_name := [];
               d_db_name := Some (lit "Asha");
               d_details := lit "Name mismatch: Excel='' vs DB='Asha'" |}], O).
Proof. split; vm_compute; reflexivity. Qed.

(** C3 (amended): for a roster row and the database record keyed by
    its badge, an empty roster value yields no message for age, blood
    group, emergency contact and photo, whatever the database holds; a
    roster value against an empty database value yields the message of
    its field, for all five fields; the name is compared in both
    directions, so an empty roster name against a database name is
    reported as well. *)
Theorem roster_side_tolerance :
  forall (f : str -> option Z) (r : row) (p : participant),
    let excel_name := stripped_or_empty (r_name r) in
    let excel_blood := stripped_or_empty (r_blood r) in
    let excel_emergency := normalize_phone (r_emergency r) in
    let excel_photo := excel_photo_of r in
    let db_name := db_stripped_or_empty (p_name p) in
    field_issues f r p
    = name_issues excel_name db_name
        ++ age_issues (excel_age_of f (r_age r)) (p_age p)
        ++ blood_issues excel_blood (db_stripped_or_empty (p_bloodGroup p))
        ++ emergency_issues excel_emergency
             (normalize_phone (of_db (p_emergencyContact p)))
        ++ photo_issues excel_photo (db_stripped_or_empty (p_photoUri p))
    /\ (forall d, age_issues None d = [])
    /\ (forall d, blood_issues [] d = [])
    /\ (forall d, emergency_issues [] d = [])
    /\ (forall d, photo_issues [] d = [])
    /\ (forall e, age_issues (Some e) None
                  = [lit "Age missing in DB: Excel=" ++ str_of_int e])
    /\ blood_issues excel_blood []
       = (if is_empty excel_blood then []
          else [lit "Blood group mismatch: Excel=" ++ quoted excel_blood
                  ++ lit " vs DB=" ++ quoted []])
    /\ emergency_issues excel_emergency []
       = (if is_empty excel_emergency then []
          else [lit "Emergency contact mismatch: Excel=" ++ quoted excel_emergency
                  ++ lit " vs DB=" ++ quoted []])
    /\ photo_issues excel_photo []
       = (if is_empty excel_photo then []
          else [lit "Photo missing in DB: Excel has photo link"])
    /\ name_issues excel_name []
       = (if is_empty excel_name then []
          else [lit "Name mismatch: Excel=" ++ quoted excel_name
                  ++ lit " vs DB=" ++ quoted []])
    /\ name_issues [] db_name
       = (if is_empty db_name then []
          else [lit "Name mismatch: Excel=" ++ quoted []
                  ++ lit " vs DB=" ++ quoted db_name]).
Proof.
  intros f r p. cbv zeta. split; [reflexivity|].
  split; [done|]. split; [apply blood_issues_excel_empty|].
  split; [apply emergency_issues_excel_empty|].
  split; [apply photo_issues_excel_empty|]. split; [done|].
  split; [apply blood_issues_db_empty, stripped_or_empty_fixed|].
  split; [apply emergency_issues_db_empty|].
  split; [apply photo_issues_db_empty|].
  split; [apply name_issues_db_empty, stripped_or_empty_fixed|].
  apply name_issues_excel_empty, db_stripped_or_empty_fixed.
Qed.

End FieldTolerance.

(* ===================================================================== *)
(** * The validity check *)
(* ===================================================================== *)

Section Validity.
Import VerifyAll Checks.

(** C5 (counterexample): a record indexed under badge 500, with a
    malformed uuid and age 0, is not flagged: the check visits the
    badges 1 to 417 only. *)
Lemma record_outside_cohort_not_flagged :
  exists by_badge,
    index_by_badge [outsider] = Ok by_badge
    /\ by_badge !! 500 = Some outsider
    /\ uuid_issues (p_uuid outsider) <> []
    /\ age_issues (p_age outsider) <> []
    /\ invalid_of by_badge = [].
Proof.
  eexists. split; [vm_compute; reflexivity|].
  split; [vm_compute; reflexivity|]. split; [vm_compute; discriminate|].
  split; [vm_compute; discriminate|]. vm_compute. reflexivity.
Qed.

(** C5 (amended): for every record of the badge index whose badge
    lies in 1..417, a uuid whose length is not 36 or that does not
    hold four hyphens is flagged, an age that [int] rejects is
    flagged, and an integer age is flagged exactly when it is outside
    1..120: ages 1 and 120 pass, 0 and 121 are flagged. *)
Theorem validity_flags_cohort_records :
  forall (by_badge : gmap Z participant) (badge : Z) (p : participant),
    by_badge !! badge = Some p ->
    1 <= badge <= 417 ->
    (forall u, p_uuid p = Some u ->
               length u <> 36%nat \/ count_char "-" u <> 4%nat ->
               flagged by_badge badge p (lit "invalid UUID: " ++ u))
    /\ (forall a n, p_age p = Some a -> int_of_age a = Ok n ->
                    n < 1 \/ 120 < n ->
                    flagged by_badge badge p (lit "invalid age: " ++ str_of_int n))
    /\ (forall a e, p_age p = Some a -> int_of_age a = Raise e ->
                    flagged by_badge badge p (lit "non-numeric age: " ++ str_of_age a))
    /\ (forall a n, p_age p = Some a -> int_of_age a = Ok n ->
                    1 <= n <= 120 -> age_issues (p_age p) = [])
    /\ age_issues (Some (AgeInt 1)) = []
    /\ age_issues (Some (AgeInt 120)) = []
    /\ age_issues (Some (AgeInt 0)) = [lit "invalid age: 0"]
    /\ age_issues (Some (AgeInt 121)) = [lit "invalid age: 121"].
Proof.
  intros by_badge badge p Hp Hin.
  split; [|split; [|split; [|split]]].
  - intros u Hu Hbad. apply flagged_intro; [done|done|].
    unfold issues_of. rewrite Hu, (uuid_issues_bad u Hbad).
    apply elem_of_app. left. by apply list_elem_of_singleton.
  - intros a n Ha Hn Hout. apply flagged_intro; [done|done|].
    unfold issues_of. rewrite Ha, (age_issues_out_of_range a n Hn Hout).
    rewrite !elem_of_app. right. right. by apply list_elem_of_singleton.
  - intros a e Ha He. apply flagged_intro; [done|done|].
    unfold issues_of. rewrite Ha, (age_issues_non_numeric a e He).
    rewrite !elem_of_app. right. right. by apply list_elem_of_singleton.
  - intros a n Ha Hn Hok. rewrite Ha. by apply (age_issues_in_range a n).
  - repeat split; reflexivity.
Qed.

(** The record of badge 7, with its uuid of 35 characters, is flagged. *)
Lemma validity_flags_cohort_records_witness :
  flagged {[7 := badge_seven]} 7 badge_seven (lit "invalid UUID: " ++ short_uuid).
Proof.
  refine (proj1 (validity_flags_cohort_records {[7 := badge_seven]} 7 badge_seven
                   _ _) short_uuid _ _).
  - vm_compute. reflexivity.
  - lia.
  - reflexivity.
  - left. vm_compute. discriminate.
Defined.

(** Scenario C of the specification: the uuid issue is the only one
    of that record. *)
Example badge_seven_issues :
  issues_of 7 badge_seven = [lit "invalid UUID: " ++ short_uuid].
Proof. vm_compute. reflexivity. Qed.

End Validity.


(* ===================================================================== *)
(** * Order of the findings *)
(* ===================================================================== *)

Section Ordering.
Import VerifyFinal.

(** C6 (counterexample): the roster lists badge 2 before badge 1 and
    neither is in the database; the discrepancy list holds badge 2
    before badge 1. *)
Lemma discrepancies_follow_row_order :
  exists ds k,
    outcome (compare_data no_age [roster_row (Str (lit "B")) 2;
                                  roster_row (Str (lit "A")) 1] []) = Ok (ds, k)
    /\ map d_badge ds = [2; 1]
    /\ ~ Sorted Z.le (map d_badge ds).
Proof.
  eexists _, _. split; [vm_compute; reflexivity|]. split; [reflexivity|].
  simpl. intros H. inversion H as [|? ? _ Hhd]; subst.
  inversion Hhd as [|? ? Hle]; subst. lia.
Qed.

(** C6 (amended): the lists of missing badges, incomplete records and
    invalid records of [verify_all_participants.py] are in strictly
    ascending badge order for every index; the discrepancy list of
    [compare_data] keeps the order of the roster rows, so that it is
    ascending whenever the rows are. *)
Theorem findings_order :
  (forall by_badge : gmap Z participant,
      StronglySorted Z.lt (VerifyAll.missing_badges_of by_badge)
      /\ StronglySorted Z.lt (map finding_badge (VerifyAll.incomplete_of by_badge))
      /\ StronglySorted Z.lt (map finding_badge (VerifyAll.invalid_of by_badge)))
  /\ (forall (f : str -> option Z) rows db ds k,
         outcome (compare_data f rows db) = Ok (ds, k) ->
         map d_badge ds `sublist_of` omap row_badge rows
         /\ (StronglySorted Z.le (omap row_badge rows) ->
             StronglySorted Z.le (map d_badge ds))).
Proof.
  split.
  - intros by_badge. split; [apply Checks.missing_badges_ascending|].
    split; [apply Checks.incomplete_ascending|apply Checks.invalid_ascending].
  - intros f rows db ds k H.
    pose proof (FinalRuns.compare_data_row_order f rows db ds k H) as Hsub.
    split; [done|]. by apply FinalRuns.sublist_strongly_sorted.
Qed.

(** Two roster rows in ascending order give an ascending list. *)
Lemma findings_order_witness :
  StronglySorted Z.le
    (map d_badge
       (match outcome (compare_data no_age [roster_row (Str (lit "A")) 1;
                                            roster_row (Str (lit "B")) 2] []) with
        | Ok (ds, _) => ds
        | Raise _ => []
        end)).
Proof.
  destruct (outcome (compare_data no_age [roster_row (Str (lit "A")) 1;
                                          roster_row (Str (lit "B")) 2] []))
    as [[ds k]|e] eqn:E; [|constructor].
  apply (proj2 (proj2 findings_order no_age _ _ ds k E)).
  vm_compute. repeat constructor; discriminate.
Defined.

End Ordering.

(* ===================================================================== *)
(** * Writing the report *)
(* ===================================================================== *)

Section ReportWrite.

(** C7 (counterexample): with an empty database, no QR-code
    directory and an empty roster, both scripts reach the write of
    their report; when the file cannot be written the run ends with
    the raised [OSError], and nothing is printed for it. *)
Lemma report_write_failure_is_raised :
  outcome (VerifyAll.main [] None false) = Raise OSError
  /\ outcome (VerifyFinal.main no_age [] [] false) = Raise OSError
  /\ events (VerifyFinal.main no_age [] [] false)
     = events (VerifyFinal.run_compare no_age [] []).
Proof. repeat split; vm_compute; reflexivity. Qed.

(** C7 (amended): in every run that reaches the write of the report,
    the textual summary has been printed before, whether or not the
    write succeeds; a write that fails is not caught: the run ends
    with the raised error after that output, and a write that succeeds
    is followed by the closing line. *)
Theorem summary_precedes_report_write :
  (forall ps dir r,
      outcome (VerifyAll.run_checks ps dir) = Ok r ->
      let said := events (VerifyAll.run_checks ps dir) in
      VerifyAll.Print (if VerifyAll.all_passed r
                       then VerifyAll.AllVerificationsPassed
                       else VerifyAll.SomeVerificationsFailed) ∈ said
      /\ VerifyAll.main ps dir true
         = (said ++ [VerifyAll.WriteReport r; VerifyAll.Print VerifyAll.ReportSaved],
            Ok tt)
      /\ VerifyAll.main ps dir false = (said, Raise OSError))
  /\ (forall (f : str -> option Z) rows db ds k,
         outcome (VerifyFinal.compare_data f rows db) = Ok (ds, k) ->
         exists r,
           let said := events (VerifyFinal.run_compare f rows db) in
           VerifyFinal.Print (VerifyFinal.MatchingRecords k) ∈ said
           /\ VerifyFinal.Print (VerifyFinal.DiscrepanciesFound (length ds)) ∈ said
           /\ (forall d, d ∈ ds ->
                         VerifyFinal.Print (VerifyFinal.DiscrepancyDetail d) ∈ said)
           /\ VerifyFinal.main f rows db true
              = (said ++ [VerifyFinal.WriteReport r;
                          VerifyFinal.Print VerifyFinal.ReportSaved], Ok ds)
           /\ VerifyFinal.main f rows db false = (said, Raise OSError)).
Proof.
  split.
  - intros ps dir r Hr said.
    assert (VerifyAll.run_checks ps dir = (said, Ok r)) as Hrun
      by (by rewrite (Runs.prog_eta (VerifyAll.run_checks ps dir)), Hr).
    split; [|split].
    + destruct (AllRuns.run_checks_ok_inv _ _ _ Hr) as (m & fb & Hidx & Hfile & Hsample).
      pose proof (AllRuns.run_checks_reached ps dir m fb Hidx Hfile Hsample) as Hfull.
      subst said. rewrite Hfull in Hr |- *.
      rewrite Runs.outcome_pair in Hr. rewrite Runs.events_pair.
      injection Hr as <-. cbn [VerifyAll.all_passed].
      rewrite !elem_of_app. do 7 right.
      apply Checks.summary_verdict_printed, Checks.summary_outcome.
    + by rewrite (AllRuns.main_after_checks ps dir true said r Hrun).
    + rewrite (AllRuns.main_after_checks ps dir false said r Hrun).
      by rewrite app_nil_r.
  - intros f rows db ds k H.
    pose proof (FinalRuns.run_compare_reached f rows db ds k H) as Hrun.
    eexists. cbv zeta. rewrite Hrun, !Runs.events_pair.
    split; [|split; [|split; [|split]]].
    + rewrite !elem_of_app. right. right. left. apply list_elem_of_In. simpl. tauto.
    + rewrite !elem_of_app. right. right. left. apply list_elem_of_In. simpl. tauto.
    + intros d Hd. rewrite !elem_of_app. do 3 right.
      destruct ds as [|d0 ds]; [by apply not_elem_of_nil in Hd|].
      cbn [is_empty]. right.
      apply (list_elem_of_fmap_2
               (fun d => VerifyFinal.Print (VerifyFinal.DiscrepancyDetail d))) in Hd.
      exact Hd.
    + rewrite (FinalRuns.main_after_compare f rows db true _ _ _ Hrun). reflexivity.
    + rewrite (FinalRuns.main_after_compare f rows db false _ _ _ Hrun).
      by rewrite app_nil_r.
Qed.

(** The runs over an empty database and an empty roster. *)
Lemma summary_precedes_report_write_witness :
  VerifyAll.main [] None false = (events (VerifyAll.run_checks [] None), Raise OSError)
  /\ exists r,
       VerifyFinal.main no_age [] [] false
       = (events (VerifyFinal.run_compare no_age [] []), Raise OSError)
       /\ VerifyFinal.main no_age [] [] true
          = (events (VerifyFinal.run_compare no_age [] [])
               ++ [VerifyFinal.WriteReport r;
                   VerifyFinal.Print VerifyFinal.ReportSaved], Ok []).
Proof.
  split.
  - refine (proj2 (proj2 (proj1 summary_precedes_report_write [] None _ _))).
    vm_compute. reflexivity.
  - destruct (proj2 summary_precedes_report_write no_age [] [] [] O)
      as (r & _ & _ & _ & Htrue & Hfalse).
    + vm_compute. reflexivity.
    + exists r. split; [exact Hfalse|exact Htrue].
Defined.

End ReportWrite.



(* ===================================================================== *)
(** * A missing QR-code directory *)
(* ===================================================================== *)

Section MissingDirectory.
Import VerifyAll Runs.

Lemma run_checks_no_directory_events ps m :
  index_by_badge ps = Ok m ->
  exists after,
    events (run_checks ps None)
    = [Print (Heading "COMPREHENSIVE PARTICIPANT VERIFICATION REPORT");
       Print (TotalParticipants (length ps))]
        ++ events (badge_phase m)
        ++ [Print (Heading "2. QR CODE FILE VERIFICATION");
            Print (Warning (lit "QR codes directory not found"))]
        ++ events (completeness_phase m)
        ++ events (validity_phase m)
        ++ after.
Proof.
  intros Hidx. unfold run_checks.
  AllRuns.run_with Hidx AllRuns.file_phase_no_directory AllRuns.phase_step.
  eexists. reflexivity.
Qed.




(** The directory does not decide how a run ends: with any listing on
    which the file check returns, the run ends as it does without the
    directory. *)
Lemma outcome_without_directory ps can_write files fb :
  outcome (file_phase (Some files)) = Ok fb ->
  outcome (main ps (Some files) can_write) = outcome (main ps None can_write).
Proof.
  intros H. rewrite !AllRuns.main_outcome, H.
  by rewrite AllRuns.file_phase_no_directory_outcome.
Qed.

(** A sampled record without [uuid] ends the run in the sample
    section, with or without the directory. *)
Example null_uuid_in_sample_ends_run :
  let p := {| p_id := 1; p_uuid := None; p_name := Some (lit "Asha");
              p_mobile := None; p_qrToken := Some (lit "PALITANA_YATRA_1");
              p_emergencyContact := None; p_photoUri := None;
              p_bloodGroup := None; p_age := None |} in
  outcome (main [p] None true) = Raise TypeError
  /\ outcome (main [p] (Some []) true) = Raise TypeError.
Proof. split; vm_compute; reflexivity. Qed.

End MissingDirectory.

(* ===================================================================== *)
(** * Collisions and badge 0 in the index *)
(* ===================================================================== *)

Section IndexClaims.
Import Index.

(** C9: when index construction ends normally, each badge of the
    index is mapped to the record occurring latest among those whose
    token derives it, and each derived badge other than 0 is in the
    index.  A collision raises nothing and leaves no finding: index
    construction raises only what the derivation of some record
    raises, and the index and the finding lists are those of the
    rows without the record that a later one overwrites. *)
Theorem index_last_write_wins :
  forall ps : list participant,
    (forall by_badge,
        index_by_badge ps = Ok by_badge ->
        (forall b p, by_badge !! b = Some p -> latest_deriving b ps p)
        /\ (forall b p, b <> 0 -> latest_deriving b ps p -> by_badge !! b = Some p))
    /\ (forall e,
          index_by_badge ps = Raise e ->
          exists p, p ∈ ps /\ extract_badge_number (p_qrToken p) = Raise e)
    /\ (forall b before p after,
          ps = before ++ p :: after ->
          derives b p = true ->
          Exists (fun q => derives b q = true) after ->
          index_by_badge ps = index_by_badge (before ++ after)
          /\ findings_of ps = findings_of (before ++ after)).
Proof.
  intros ps. split; [|split].
  - intros m Hidx. split.
    + intros b p Hb.
      destruct (index_from_lookup ∅ ps m b p Hidx Hb) as [[_ H]|[_ H]]; [done|].
      by rewrite lookup_empty in H.
    + intros b p Hne Hlatest. by apply (index_from_latest ∅ ps m b p).
  - intros e. apply index_from_raises.
  - intros b before p after -> Hp Hex.
    pose proof (index_drop_overwritten b before p after Hp Hex) as Heq.
    split; [done|]. unfold findings_of. by rewrite Heq.
Qed.

(** Of two records that derive badge 5, the index holds the second. *)
Lemma index_last_write_wins_witness :
  ({[5 := second_five]} : gmap Z participant) !! 5 = Some second_five
  /\ latest_deriving 5 [first_five; second_five] second_five.
Proof.
  destruct (proj1 (index_last_write_wins [first_five; second_five])
              {[5 := second_five]}) as [Hlatest Hmapped].
  - vm_compute. reflexivity.
  - split.
    + apply Hmapped; [lia|]. exists [first_five], [].
      split; [reflexivity|]. split; [vm_compute; reflexivity|constructor].
    + apply Hlatest. vm_compute. reflexivity.
Defined.

(** C10: the token ['PALITANA_YATRA_0'] derives badge 0, which the
    test [if badge] takes as false; a record with that token is left
    out of the index, so that the index, the three finding lists of
    [verify_all_participants.py] and the comparison of
    [verify_final_data.py] are those of the rows without it, no badge
    of the index is mapped to it, and badge 0 is never indexed. *)
Theorem badge_zero_is_not_indexed :
  forall p : participant,
    p_qrToken p = Some (lit "PALITANA_YATRA_0") ->
    extract_badge_number (p_qrToken p) = Ok (Some 0)
    /\ truthy_int (Some 0) = false
    /\ forall ps1 ps2,
         index_by_badge (ps1 ++ p :: ps2) = index_by_badge (ps1 ++ ps2)
         /\ findings_of (ps1 ++ p :: ps2) = findings_of (ps1 ++ ps2)
         /\ (forall f rows,
                VerifyFinal.compare_data f rows (ps1 ++ p :: ps2)
                = VerifyFinal.compare_data f rows (ps1 ++ ps2))
         /\ (forall by_badge,
                index_by_badge (ps1 ++ p :: ps2) = Ok by_badge ->
                by_badge !! 0 = None /\ forall b, by_badge !! b <> Some p).
Proof.
  intros p Htok.
  assert (extract_badge_number (p_qrToken p) = Ok (Some 0)) as Hzero
    by (rewrite Htok; reflexivity).
  split; [done|]. split; [done|]. intros ps1 ps2.
  assert (index_by_badge (ps1 ++ p :: ps2) = index_by_badge (ps1 ++ ps2)) as Heq
    by (by apply index_from_drop_zero).
  split; [done|]. split; [|split].
  - unfold findings_of. by rewrite Heq.
  - intros f rows. unfold VerifyFinal.compare_data. by rewrite Heq.
  - intros m Hidx. split.
    + rewrite (index_from_zero _ _ _ Hidx). apply lookup_empty.
    + intros b Hb.
      destruct (index_from_lookup ∅ _ m b p Hidx Hb) as [[Hne H]|[_ H]].
      * destruct H as (l1 & l2 & _ & Hd & _). unfold derives in Hd.
        rewrite Hzero in Hd. apply Z.eqb_eq in Hd. lia.
      * by rewrite lookup_empty in H.
Qed.

(** The record of badge 0 after the record of badge 7 changes nothing. *)
Lemma badge_zero_is_not_indexed_witness :
  index_by_badge [badge_seven; badge_zero] = index_by_badge [badge_seven]
  /\ findings_of [badge_seven; badge_zero] = findings_of [badge_seven].
Proof.
  destruct (badge_zero_is_not_indexed badge_zero) as (_ & _ & H).
  - reflexivity.
  - destruct (H [badge_seven] []) as (Hidx & Hfind & _). split; [exact Hidx|exact Hfind].
Defined.

End IndexClaims.


(* ===================================================================== *)
(** * The listing of QR-code files *)
(* ===================================================================== *)

Section FileListing.
Import VerifyAll IntFacts.

Lemma parse_digits_digits ds acc :
  Forall digit ds -> 0 <= acc ->
  exists n, parse_digits acc false ds = Some n /\ 0 <= n.
Proof.
  intros Hds. revert acc. induction Hds as [|c ds Hc _ IH]; intros acc Hacc.
  - exists acc. done.
  - cbn [parse_digits]. rewrite (digit_not_underscore c Hc).
    unfold digit_val. rewrite Hc. apply IH.
    assert (0 <= Z.of_N (code c) - 48); [|lia].
    unfold digit, is_digit, in_range in Hc.
    apply andb_true_iff in Hc as [H1 _]. apply N.leb_le in H1. lia.
Qed.

(** On ASCII characters [str.isdigit] holds of the decimal digits
    only. *)
Lemma isdigit_char_ascii c : isdigit_char c = true -> (code c < 128)%N -> digit c.
Proof.
  unfold digit.
  destruct c as [[] [] [] [] [] [] [] []]; vm_compute; intros H1 H2;
    first [reflexivity | discriminate].
Qed.

Lemma digit_isdigit_char c : digit c -> isdigit_char c = true.
Proof. unfold digit, isdigit_char. by intros ->. Qed.

Lemma isdigit_digits s :
  isdigit s = true -> s <> [] /\ Forall (fun c => isdigit_char c = true) s.
Proof.
  destruct s as [|c s]; [done|]. unfold isdigit.
  rewrite forallb_forall, List.Forall_forall. by split.
Qed.

Lemma isdigit_ascii_digits s :
  isdigit s = true -> ascii_text s -> s <> [] /\ Forall digit s.
Proof.
  intros [Hne Hds]%isdigit_digits Ha. split; [done|].
  unfold ascii_text in Ha. rewrite Forall_forall in Hds, Ha. apply Forall_forall.
  intros c Hc. apply isdigit_char_ascii; [by apply Hds|by apply Ha].
Qed.

Lemma digits_isdigit s : s <> [] -> Forall digit s -> isdigit s = true.
Proof.
  destruct s as [|c s]; [done|]. intros _ Hds. unfold isdigit.
  apply forallb_forall. intros x Hx%list_elem_of_In.
  apply digit_isdigit_char. by apply (proj1 (Forall_forall _ _) Hds).
Qed.

(** [int] accepts a run of digits within the digit limit. *)
Lemma int_of_str_isdigit s :
  isdigit s = true -> ascii_text s -> (length s <= int_max_str_digits)%nat ->
  exists n, int_of_str s = Ok n /\ 0 <= n.
Proof.
  intros Hd Ha Hlen. destruct (isdigit_ascii_digits s Hd Ha) as [Hne Hds].
  destruct (parse_digits_digits s 0 Hds) as (n & Hn & Hpos); [done|].
  exists n. split; [|done].
  apply (int_of_str_digits s n); [done|done| |done].
  by rewrite parse_nat_digits.
Qed.

Lemma split_head_length sep s : (length (split_head sep s) <= length s)%nat.
Proof.
  induction s as [|c s IH]; [done|]. simpl. destruct (eqc sep c); simpl; lia.
Qed.

Lemma split_head_app sep a rest :
  Forall (fun c => eqc sep c = false) a ->
  split_head sep (a ++ sep :: rest) = a.
Proof.
  induction 1 as [|c a Hc _ IH]; simpl; [by rewrite eqc_refl|].
  by rewrite Hc, IH.
Qed.

Lemma split_head_whole sep s :
  Forall (fun c => eqc sep c = false) s -> split_head sep s = s.
Proof. induction 1 as [|c a Hc _ IH]; simpl; [done|]. by rewrite Hc, IH. Qed.

Lemma split_head_ascii sep s : ascii_text s -> ascii_text (split_head sep s).
Proof.
  induction 1 as [|c s Hc _ IH]; [constructor|]. cbn [split_head].
  destruct (eqc sep c); [constructor|by constructor].
Qed.

Lemma file_badge_short name :
  ascii_text name ->
  (length name <= int_max_str_digits)%nat ->
  file_badge name = Ok (file_number name).
Proof.
  intros Ha Hlen. unfold file_number, file_badge.
  destruct (isdigit (split_head "_" name)) eqn:E; [|done].
  destruct (int_of_str_isdigit _ E) as (n & -> & _); [| |done].
  - by apply split_head_ascii.
  - pose proof (split_head_length "_" name). lia.
Qed.

Lemma file_badges_of_short files :
  Forall ascii_text files ->
  Forall (fun f => (length f <= int_max_str_digits)%nat) files ->
  file_badges_of files = Ok (omap file_number files).
Proof.
  intros Ha. induction 1 as [|f files Hf _ IH]; [done|]. cbn [file_badges_of].
  apply Forall_cons in Ha as [Haf Ha].
  rewrite (file_badge_short f Haf Hf), (IH Ha). cbn. by destruct (file_number f).
Qed.

Lemma file_badges_of_numbers files l :
  file_badges_of files = Ok l -> l = omap file_number files.
Proof.
  revert l. induction files as [|f files IH]; intros l; cbn [file_badges_of].
  - by intros [= <-].
  - destruct (file_badge f) as [b|e] eqn:E; [|done].
    destruct (file_badges_of files) as [rest|e]; [|done].
    unfold mbind, result_bind. intros [= <-]. cbn [omap list_omap].
    unfold file_number at 1. rewrite E, <- (IH rest eq_refl). by destruct b.
Qed.

Lemma file_badge_raises_value_error f e : file_badge f = Raise e -> e = ValueError.
Proof.
  unfold file_badge. destruct (isdigit (split_head "_" f)); [|done].
  destruct (int_of_str (split_head "_" f)) as [n|e'] eqn:Ei; [done|].
  intros [= <-]. by apply int_of_str_raises_value_error in Ei.
Qed.

Lemma file_badge_raises f e :
  ascii_text f ->
  file_badge f = Raise e ->
  e = ValueError /\ (int_max_str_digits < length f)%nat.
Proof.
  intros Ha H. split; [by apply (file_badge_raises_value_error f)|].
  destruct (decide (length f <= int_max_str_digits)%nat) as [Hf|Hf]; [|lia].
  by rewrite (file_badge_short f Ha Hf) in H.
Qed.

Lemma file_badges_of_raises_value_error files e :
  file_badges_of files = Raise e -> e = ValueError.
Proof.
  induction files as [|f files IH]; cbn [file_badges_of]; [done|].
  destruct (file_badge f) as [b|e'] eqn:E.
  - unfold mbind at 1, result_bind at 1.
    destruct (file_badges_of files) as [rest|e'']; [done|].
    intros [= ->]. by apply IH.
  - intros [= ->]. by apply (file_badge_raises_value_error f).
Qed.

Lemma file_badges_of_raises files e :
  Forall ascii_text files ->
  file_badges_of files = Raise e ->
  e = ValueError
  /\ Exists (fun f => (int_max_str_digits < length f)%nat) files.
Proof.
  induction 1 as [|f files Haf _ IH]; cbn [file_badges_of]; [done|].
  destruct (file_badge f) as [b|e'] eqn:E.
  - unfold mbind at 1, result_bind at 1.
    destruct (file_badges_of files) as [rest|e'']; [done|].
    intros [= ->]. destruct (IH eq_refl) as [-> Hex]. split; [done|by right].
  - intros [= ->]. destruct (file_badge_raises f e Haf E) as [-> Hlen].
    split; [done|by left].
Qed.

Lemma qr_listing_parts files l :
  verify_qr_code_files (Some files) = Ok (Some l, None) ->
  Sorted Z.le l /\ l ≡ₚ omap file_number files.
Proof.
  cbn [verify_qr_code_files].
  destruct (file_badges_of files) as [l0|e] eqn:E; [|done]. cbn.
  intros [= <-]. split; [apply (Sorted_merge_sort Z.le)|].
  rewrite merge_sort_Permutation. by rewrite (file_badges_of_numbers files l0 E).
Qed.

(** X1: on a directory that exists, [verify_qr_code_files] gives no
    error message and a list in ascending order that holds, with
    their multiplicity, the numbers of the listed files, whatever the
    order of the listing. *)
Theorem qr_listing_sorted_numbers :
  forall files file_badges error,
    verify_qr_code_files (Some files) = Ok (file_badges, error) ->
    error = None
    /\ exists l, file_badges = Some l
                 /\ Sorted Z.le l
                 /\ l ≡ₚ omap file_number files.
Proof.
  intros files fb err. cbn [verify_qr_code_files].
  destruct (file_badges_of files) as [l|e] eqn:E; [|done]. cbn.
  intros [= <- <-]. split; [done|]. exists (merge_sort Z.le l).
  split; [done|]. split; [apply (Sorted_merge_sort Z.le)|].
  rewrite merge_sort_Permutation. by rewrite (file_badges_of_numbers files l E).
Qed.

(** A listing of three names, one of them without a number. *)
Lemma qr_listing_sorted_numbers_witness :
  exists l,
    Sorted Z.le l
    /\ l ≡ₚ omap file_number [lit "10_a.png"; lit "x.png"; lit "2_b.png"].
Proof.
  destruct (qr_listing_sorted_numbers
              [lit "10_a.png"; lit "x.png"; lit "2_b.png"] (Some [2; 10]) None)
    as (_ & l & _ & Hsorted & Hperm).
  - vm_compute. reflexivity.
  - exists l. split; [exact Hsorted|exact Hperm].
Defined.

(** X2: a file name that starts with the decimal text of a number,
    followed by an underscore, counts for that number; a name matched
    by [*.png] that has no underscore does not count, even when it
    starts with digits. *)
Theorem qr_file_name_number :
  (forall n rest,
      0 <= n -> (length (str_of_int n) <= int_max_str_digits)%nat ->
      file_badge (str_of_int n ++ "_"%char :: rest) = Ok (Some n))
  /\ (forall base,
        Forall (fun c => eqc "_" c = false) base ->
        file_badge (base ++ lit ".png") = Ok None).
Proof.
  split.
  - intros n rest Hn Hlen. unfold file_badge.
    assert (Forall digit (str_of_int n) /\ str_of_int n <> []) as [Hds Hne].
    { destruct n as [|p|p]; [split; [by repeat constructor|done]| |lia].
      destruct (str_of_int_pos p) as (ds & -> & Hds & Hne & _). done. }
    rewrite split_head_app.
    + rewrite digits_isdigit by done.
      by rewrite int_of_str_str_of_int.
    + eapply Forall_impl; [exact Hds|]. intros c. unfold digit. by_cases_on_char c.
  - intros base Hbase. unfold file_badge.
    rewrite split_head_whole.
    + assert (isdigit (base ++ lit ".png") = false) as ->; [|done].
      destruct (isdigit (base ++ lit ".png")) eqn:E; [|done].
      apply isdigit_digits in E as [_ E]. apply Forall_app in E as [_ E].
      by inversion E.
    + apply Forall_app. split; [done|by repeat constructor].
Qed.

(** The names [12_asha.png] and [12.png]. *)
Lemma qr_file_name_number_witness :
  file_badge (str_of_int 12 ++ "_"%char :: lit "asha.png") = Ok (Some 12)
  /\ file_badge (lit "12" ++ lit ".png") = Ok None.
Proof.
  split.
  - apply (proj1 qr_file_name_number 12 (lit "asha.png")); [lia|vm_compute; lia].
  - apply (proj2 qr_file_name_number (lit "12")). by repeat constructor.
Defined.

(** X3: on a listing of ASCII names, [verify_qr_code_files] returns
    whenever the names have at most 4300 characters, with the sorted
    numbers of the files; when it raises, it raises [ValueError], on
    a name that is longer.  (A name that opens with a superscript
    digit is not ASCII: [str.isdigit] accepts it and [int] then
    raises, whatever its length.) *)
Theorem qr_listing_returns_on_short_names :
  forall files,
    Forall ascii_text files ->
    (Forall (fun f => (length f <= int_max_str_digits)%nat) files ->
     verify_qr_code_files (Some files)
     = Ok (Some (merge_sort Z.le (omap file_number files)), None))
    /\ (forall e,
          verify_qr_code_files (Some files) = Raise e ->
          e = ValueError
          /\ Exists (fun f => (int_max_str_digits < length f)%nat) files).
Proof.
  intros files Ha. split.
  - intros H. cbn [verify_qr_code_files]. by rewrite file_badges_of_short.
  - intros e. cbn [verify_qr_code_files].
    destruct (file_badges_of files) as [l|e'] eqn:E; [done|]. cbn.
    intros [= ->]. by apply file_badges_of_raises.
Qed.

(** The listing of two short names. *)
Lemma qr_listing_returns_on_short_names_witness :
  verify_qr_code_files (Some [lit "3_c.png"; lit "1_a.png"])
  = Ok (Some (merge_sort Z.le (omap file_number [lit "3_c.png"; lit "1_a.png"])),
        None).
Proof.
  apply (proj1 (qr_listing_returns_on_short_names [lit "3_c.png"; lit "1_a.png"]
                  ltac:(repeat constructor; vm_compute; reflexivity))).
  repeat constructor; vm_compute; lia.
Defined.

(** The name that opens with a superscript two is a digit string for
    [str.isdigit], and [int] raises on it. *)
Example superscript_file_name_raises :
  file_badge (ascii_of_nat 178 :: lit "_a.png") = Raise ValueError
  /\ verify_qr_code_files (Some [ascii_of_nat 178 :: lit "_a.png"])
     = Raise ValueError.
Proof. split; vm_compute; reflexivity. Qed.

Lemma mem_elem_of x l : mem x l = true <-> x ∈ l.
Proof.
  unfold mem. rewrite existsb_exists, list_elem_of_In. split.
  - by intros (y & Hy & ->%Z.eqb_eq).
  - intros H. exists x. split; [done|apply Z.eqb_refl].
Qed.

Lemma missing_files_of_spec (fb : list Z) i :
  i ∈ missing_files_of fb <-> 1 <= i <= 417 /\ i ∉ fb.
Proof.
  unfold missing_files_of.
  rewrite list_elem_of_In, filter_In, <- list_elem_of_In, Checks.elem_of_cohort.
  rewrite negb_true_iff, <- not_true_iff_false, mem_elem_of. done.
Qed.

(** X4: after a listing of the directory, a badge is reported as a
    missing file exactly when it lies in 1..417 and no listed file
    carries its number; files with other numbers, the order and
    repetitions of the listing do not matter. *)
Theorem missing_files_of_listing :
  forall files file_badges,
    verify_qr_code_files (Some files) = Ok (Some file_badges, None) ->
    forall i,
      i ∈ missing_files_of file_badges
      <-> 1 <= i <= 417 /\ Forall (fun f => file_number f <> Some i) files.
Proof.
  intros files fb H i.
  destruct (qr_listing_parts files fb H) as (_ & Hperm).
  rewrite missing_files_of_spec, Hperm, list_elem_of_omap, Forall_forall.
  split; intros [Hi Hn]; (split; [done|]).
  - intros f Hf Hnum. apply Hn. by exists f.
  - intros (f & Hf & Hnum). by apply (Hn f).
Qed.

(** A directory with the file of badge 1 only. *)
Lemma missing_files_of_listing_witness :
  250 ∈ missing_files_of [1]
  <-> 1 <= 250 <= 417
      /\ Forall (fun f : str => file_number f <> Some 250) [lit "1_asha.png"].
Proof.
  apply (missing_files_of_listing [lit "1_asha.png"] [1]).
  vm_compute. reflexivity.
Defined.

End FileListing.


(* ===================================================================== *)
(** * Records and the checks on them *)
(* ===================================================================== *)

Section RecordChecks.
Import VerifyAll Index.

Lemma derives_extract b p :
  derives b p = true <-> extract_badge_number (p_qrToken p) = Ok (Some b).
Proof.
  unfold derives. destruct (extract_badge_number (p_qrToken p)) as [[n|]|e].
  - rewrite Z.eqb_eq. split; [by intros ->|by intros [= ->]].
  - split; [done|by intros [=]].
  - split; [done|by intros [=]].
Qed.

Lemma extract_some_token tok b :
  extract_badge_number tok = Ok (Some b) ->
  exists t, tok = Some t /\ truthy tok = true /\ contains PREFIX t = true.
Proof.
  destruct tok as [t|]; [|done]. unfold extract_badge_number.
  destruct (truthy (Some t)) eqn:Et; [|done].
  destruct (contains PREFIX t) eqn:Ec; [|done]. intros _. by exists t.
Qed.

(** What an entry of the index is. *)
Lemma index_entry ps m b p :
  index_by_badge ps = Ok m -> m !! b = Some p ->
  b <> 0 /\ p ∈ ps /\ derives b p = true /\ truthy (p_qrToken p) = true.
Proof.
  intros Hidx Hb.
  destruct (index_from_lookup ∅ ps m b p Hidx Hb) as [[Hne H]|[_ H]];
    [|by rewrite lookup_empty in H].
  destruct H as (l1 & l2 & -> & Hd & _). split; [done|].
  split; [apply elem_of_app; right; left|]. split; [done|].
  apply derives_extract in Hd.
  by destruct (extract_some_token _ _ Hd) as (t & _ & Ht & _).
Qed.

Lemma latest_deriving_exists b ps :
  Exists (fun p => derives b p = true) ps -> exists q, latest_deriving b ps q.
Proof.
  induction ps as [|p ps IH]; [by intros H; inversion H|]. intros H.
  destruct (decide (Exists (fun p => derives b p = true) ps)) as [Hex|Hno].
  - destruct (IH Hex) as (q & l1 & l2 & -> & Hq & Hafter).
    exists q, (p :: l1), l2. done.
  - apply Exists_cons in H as [Hp|Hex]; [|done].
    exists p, [], ps. split; [done|]. split; [done|].
    apply Forall_forall. intros x Hx.
    destruct (derives b x) eqn:E; [|done]. destruct Hno.
    apply Exists_exists. by exists x.
Qed.

Lemma index_lookup_none ps m b :
  index_by_badge ps = Ok m -> b <> 0 ->
  (m !! b = None <-> Forall (fun p => derives b p = false) ps).
Proof.
  intros Hidx Hb. split.
  - intros Hnone. apply Forall_forall. intros p Hp.
    destruct (derives b p) eqn:E; [|done].
    destruct (latest_deriving_exists b ps) as (q & Hq).
    { apply Exists_exists. by exists p. }
    by rewrite (index_from_latest ∅ ps m b q Hidx Hb Hq) in Hnone.
  - intros Hall. rewrite (index_from_skips ∅ ps m b Hidx Hall). apply lookup_empty.
Qed.

Lemma missing_badges_of_spec m i :
  i ∈ missing_badges_of m <-> 1 <= i <= 417 /\ m !! i = None.
Proof.
  unfold missing_badges_of, has_badge.
  rewrite list_elem_of_In, filter_In, <- list_elem_of_In, Checks.elem_of_cohort.
  destruct (m !! i); simpl; split; intros [? ?]; done.
Qed.

(** X5: a badge is reported as missing exactly when it lies in 1..417
    and the token of no loaded record derives it. *)
Theorem missing_badges_of_records :
  forall ps by_badge,
    index_by_badge ps = Ok by_badge ->
    forall i,
      i ∈ missing_badges_of by_badge
      <-> 1 <= i <= 417 /\ Forall (fun p => derives i p = false) ps.
Proof.
  intros ps m Hidx i. rewrite missing_badges_of_spec. split; intros [Hi H].
  - split; [done|]. apply (index_lookup_none ps m i Hidx); [lia|done].
  - split; [done|]. apply (index_lookup_none ps m i Hidx); [lia|done].
Qed.

(** The database with the record of badge 7 only lacks badge 250. *)
Lemma missing_badges_of_records_witness :
  250 ∈ missing_badges_of {[7 := badge_seven]}
  <-> 1 <= 250 <= 417 /\ Forall (fun p => derives 250 p = false) [badge_seven].
Proof.
  apply (missing_badges_of_records [badge_seven] {[7 := badge_seven]}).
  vm_compute. reflexivity.
Defined.

Lemma index_from_ok_iff m ps :
  (exists m', index_from m ps = Ok m')
  <-> Forall (fun p => extract_badge_number (p_qrToken p) <> Raise ValueError) ps.
Proof.
  revert m. induction ps as [|p ps IH]; intros m; cbn [index_from].
  - split; [constructor|by exists m].
  - pose proof (index_step_cases m p) as H. rewrite Forall_cons.
    destruct (extract_badge_number_results (p_qrToken p)) as [(n & E)|[E|E]];
      rewrite E in H |- *; rewrite H; unfold mbind, result_bind.
    + rewrite IH. split; [by split|by intros []].
    + rewrite IH. split; [by split|by intros []].
    + split; [by intros [m' ?]|by intros [? _]].
Qed.

Lemma index_from_size m ps m' :
  index_from m ps = Ok m' -> (size m' <= size m + length ps)%nat.
Proof.
  revert m. induction ps as [|p ps IH]; intros m; cbn [index_from].
  - intros [= <-]. lia.
  - pose proof (index_step_cases m p) as H.
    destruct (extract_badge_number (p_qrToken p)) as [[n|]|e];
      rewrite H; unfold mbind, result_bind; [| |done].
    + intros Hm%IH. cbn [length].
      assert (size (if (n =? 0)%Z then m else <[n:=p]> m) <= S (size m))%nat; [|lia].
      destruct (n =? 0)%Z; [lia|]. rewrite map_size_insert.
      destruct (m !! n); unfold id; lia.
    + intros Hm%IH. cbn [length]. lia.
Qed.

(** X6: the index is built exactly when [extract_badge_number] raises
    on the token of no record; it then has no key 0 and at most as
    many entries as there are records. *)
Theorem index_built_iff :
  forall ps : list participant,
    ((exists by_badge, index_by_badge ps = Ok by_badge)
     <-> Forall (fun p => extract_badge_number (p_qrToken p) <> Raise ValueError) ps)
    /\ (forall by_badge,
          index_by_badge ps = Ok by_badge ->
          by_badge !! 0 = None /\ (size by_badge <= length ps)%nat).
Proof.
  intros ps. split; [apply index_from_ok_iff|].
  intros m Hidx. split.
  - rewrite (index_from_zero _ _ _ Hidx). apply lookup_empty.
  - pose proof (index_from_size _ _ _ Hidx) as H. by rewrite map_size_empty in H.
Qed.

(** Two records of badge 5 and one of badge 0 give one entry. *)
Lemma index_built_iff_witness :
  ({[5 := second_five]} : gmap Z participant) !! 0 = None
  /\ (size ({[5%Z := second_five]} : gmap Z participant) <= 3)%nat.
Proof.
  apply (proj2 (index_built_iff [first_five; badge_zero; second_five])).
  vm_compute. reflexivity.
Defined.

Lemma elem_of_incomplete_of by_badge f :
  f ∈ incomplete_of by_badge <->
  exists badge p, 1 <= badge <= 417 /\ by_badge !! badge = Some p
                  /\ missing_fields_of p <> []
                  /\ f = (badge, p_name p, missing_fields_of p).
Proof.
  unfold incomplete_of. rewrite list_elem_of_omap. split.
  - intros (badge & Hin & H). apply Checks.elem_of_cohort in Hin.
    destruct (by_badge !! badge) as [p|] eqn:E; [|done]. cbv zeta in H.
    destruct (missing_fields_of p) eqn:Ei; [done|]. injection H as <-.
    exists badge, p. rewrite Ei. done.
  - intros (badge & p & Hin & E & Hne & ->). exists badge.
    split; [by apply Checks.elem_of_cohort|]. rewrite E. cbv zeta.
    by destruct (missing_fields_of p).
Qed.

Lemma name_test_blank name :
  negb (truthy name) || is_empty (strip (str_of_opt name)) = true <-> blank name.
Proof.
  unfold blank. destruct name as [[|c s]|]; cbn [truthy negb orb str_of_opt].
  - split; [|done]. intros _. right. by exists [].
  - rewrite is_empty_nil. split.
    + intros H. right. by exists (c :: s).
    + by intros [|(s' & [= <-] & H)].
  - split; [by left|done].
Qed.

Lemma uuid_test_absent uuid : negb (truthy uuid) = true <-> absent uuid.
Proof.
  unfold absent. destruct uuid as [[|c s]|]; cbn [truthy negb].
  - split; [by right|done].
  - split; [done|by intros [|]].
  - split; [by left|done].
Qed.

Lemma fields_cases (bn bu : bool) :
  let fields := (if bn then [lit "name"] else [])
                  ++ (if bu then [lit "uuid"] else []) ++ [] in
  (lit "name" ∈ fields <-> bn = true)
  /\ (lit "uuid" ∈ fields <-> bu = true)
  /\ (lit "qrToken" ∉ fields)
  /\ (fields <> [] <-> bn = true \/ bu = true).
Proof.
  destruct bn, bu; cbn [app]; vm_compute lit;
    rewrite ?elem_of_cons, ?elem_of_nil, ?not_elem_of_cons;
    repeat split; try done; try tauto; try (intros [|]; done);
    try (intros [|[|]]; done); try (by left); try (by right; left).
Qed.

(** X7: for a record of the index under a badge of 1..417, the
    completeness check reports the name when it is NULL, empty or all
    whitespace and the uuid when it is NULL or empty, lists the record
    exactly when one of the two holds, and never reports the
    qrToken, since only records whose token holds the prefix reach
    the index. *)
Theorem completeness_of_indexed_records :
  forall ps by_badge badge p,
    index_by_badge ps = Ok by_badge ->
    by_badge !! badge = Some p ->
    1 <= badge <= 417 ->
    (lit "name" ∈ missing_fields_of p <-> blank (p_name p))
    /\ (lit "uuid" ∈ missing_fields_of p <-> absent (p_uuid p))
    /\ (lit "qrToken" ∉ missing_fields_of p)
    /\ ((badge, p_name p, missing_fields_of p) ∈ incomplete_of by_badge
        <-> blank (p_name p) \/ absent (p_uuid p)).
Proof.
  intros ps m b p Hidx Hb Hin.
  destruct (index_entry ps m b p Hidx Hb) as (_ & _ & _ & Htok).
  pose proof (fields_cases
                (negb (truthy (p_name p))
                 || is_empty (strip (str_of_opt (p_name p))))
                (negb (truthy (p_uuid p)))) as H.
  cbv zeta in H.
  assert (missing_fields_of p
          = (if negb (truthy (p_name p)) || is_empty (strip (str_of_opt (p_name p)))
             then [lit "name"] else [])
              ++ (if negb (truthy (p_uuid p)) then [lit "uuid"] else []) ++ []) as Hf.
  { unfold missing_fields_of. by rewrite Htok. }
  rewrite <- Hf in H. destruct H as (Hn & Hu & Hq & Hne).
  rewrite name_test_blank in Hn, Hne. rewrite uuid_test_absent in Hu, Hne.
  split; [done|]. split; [done|]. split; [done|].
  rewrite elem_of_incomplete_of, <- Hne. split.
  - intros (b' & p' & _ & Hb' & Hfields & [= <- Hname Heq]).
    rewrite Hb in Hb'. by injection Hb' as <-.
  - intros Hfields. by exists b, p.
Qed.

(** The record of badge 7 has its name and its uuid. *)
Lemma completeness_of_indexed_records_witness :
  (lit "qrToken" ∉ missing_fields_of badge_seven)
  /\ ((7, p_name badge_seven, missing_fields_of badge_seven)
        ∈ incomplete_of {[7 := badge_seven]}
      <-> blank (p_name badge_seven) \/ absent (p_uuid badge_seven)).
Proof.
  destruct (completeness_of_indexed_records [badge_seven] {[7 := badge_seven]}
              7 badge_seven) as (_ & _ & Hq & Hlisted).
  - vm_compute. reflexivity.
  - vm_compute. reflexivity.
  - lia.
  - split; [exact Hq|exact Hlisted].
Defined.

End RecordChecks.


(* ===================================================================== *)
(** * How a run of verify_all_participants.py ends *)
(* ===================================================================== *)

Section RunOutcomes.
Import VerifyAll Runs Checks AllRuns.

Lemma uuid_issues_nil uuid : uuid_issues uuid = [] <-> uuid_well_formed uuid.
Proof.
  unfold uuid_well_formed. destruct uuid as [u|]; cbn [uuid_issues].
  2:{ split; [done|]. by intros (u & ? & _). }
  destruct (length u =? 36)%nat eqn:El.
  - destruct (count_char "-" u =? 4)%nat eqn:Ec.
    + apply Nat.eqb_eq in El, Ec. destruct u as [|c u]; [done|].
      cbn [truthy negb orb]. split; [|done]. intros _. by exists (c :: u).
    + rewrite orb_true_r. apply Nat.eqb_neq in Ec. split; [done|].
      by intros (u' & [= <-] & _ & Hc).
  - rewrite orb_true_r. cbn [orb]. apply Nat.eqb_neq in El. split; [done|].
    by intros (u' & [= <-] & Hl & _).
Qed.

Lemma token_issues_nil badge tok :
  token_issues badge tok = [] <-> tok = Some (expected_token badge).
Proof.
  unfold token_issues. case_bool_decide as H; [done|].
  split; [|done]. intros E. by destruct (expected_token badge).
Qed.

Lemma age_issues_nil age : age_issues age = [] <-> age_acceptable age.
Proof.
  unfold age_acceptable. destruct age as [a|]; cbn [age_issues].
  2:{ split; [by left|done]. }
  destruct (int_of_age a) as [n|e] eqn:E.
  - destruct (n <? 1) eqn:E1; cbn [orb].
    + split; [done|]. intros [|(a' & n' & [= <-] & En & Hn)]; [done|].
      rewrite E in En. injection En as <-. lia.
    + destruct (n >? 120) eqn:E2.
      * split; [done|]. intros [|(a' & n' & [= <-] & En & Hn)]; [done|].
        rewrite E in En. injection En as <-. lia.
      * split; [|done]. intros _. right. exists a, n. repeat split; [done|lia|lia].
  - split; [done|]. intros [|(a' & n' & [= <-] & En & _)]; [done|].
    by rewrite E in En.
Qed.

Lemma issues_of_nil badge p :
  issues_of badge p = []
  <-> uuid_well_formed (p_uuid p)
      /\ p_qrToken p = Some (expected_token badge)
      /\ age_acceptable (p_age p).
Proof.
  unfold issues_of.
  rewrite !app_nil, uuid_issues_nil, token_issues_nil, age_issues_nil. done.
Qed.

(** X8: a record held under a badge of 1..417 stays out of the
    invalid list exactly when its uuid has 36 characters with four
    hyphens, its token is the prefix followed by the decimal text of
    the badge, and its age is NULL or read by [int] as a number of
    1..120. *)
Theorem validity_passes_iff :
  forall (by_badge : gmap Z participant) (badge : Z) (p : participant),
    by_badge !! badge = Some p ->
    1 <= badge <= 417 ->
    (forall f, f ∈ invalid_of by_badge -> finding_badge f <> badge)
    <-> uuid_well_formed (p_uuid p)
        /\ p_qrToken p = Some (expected_token badge)
        /\ age_acceptable (p_age p).
Proof.
  intros m b p Hp Hin. rewrite <- issues_of_nil. split.
  - intros H. destruct (issues_of b p) as [|i l] eqn:E; [done|].
    exfalso. apply (H (b, p_name p, issues_of b p)); [|done].
    apply elem_of_invalid_of. exists b, p. by rewrite E.
  - intros Hnil f (b' & p' & _ & Hp' & Hne & ->)%elem_of_invalid_of.
    cbn. intros ->. rewrite Hp in Hp'. injection Hp' as <-. done.
Qed.

(** The valid record of badge 5 is not listed. *)
Lemma validity_passes_iff_witness :
  (forall f, f ∈ invalid_of {[5 := valid_participant 5]} -> finding_badge f <> 5)
  <-> uuid_well_formed (p_uuid (valid_participant 5))
      /\ p_qrToken (valid_participant 5) = Some (expected_token 5)
      /\ age_acceptable (p_age (valid_participant 5)).
Proof.
  apply (validity_passes_iff {[5 := valid_participant 5]} 5 (valid_participant 5)).
  - vm_compute. reflexivity.
  - lia.
Defined.

Lemma print_sample_outcome m b :
  outcome (print_sample m b) =
    match m !! b with
    | Some p => match p_uuid p with
                | Some _ => Ok tt
                | None => Raise TypeError
                end
    | None => Ok tt
    end.
Proof.
  unfold print_sample. destruct (m !! b) as [p|]; [|done].
  by destruct (p_uuid p).
Qed.

Lemma for_each_outcome {E A} (f : A -> prog E unit) l :
  match outcome (for_each f l) with
  | Ok _ => Forall (fun x => outcome (f x) = Ok tt) l
  | Raise e => exists x, x ∈ l /\ outcome (f x) = Raise e
  end.
Proof.
  induction l as [|x l IH]; cbn [for_each]; [by constructor|].
  rewrite outcome_bind. destruct (outcome (f x)) as [[]|e] eqn:Ex.
  - destruct (outcome (for_each f l)) as [[]|e].
    + by constructor.
    + destruct IH as (y & Hy & Ey). exists y. split; [by right|done].
  - exists x. split; [by left|done].
Qed.

Lemma outcome_for_each_app {E A} (f : A -> prog E unit) l1 l2 :
  outcome (for_each f l1;; for_each f l2) = outcome (for_each f (l1 ++ l2)).
Proof.
  induction l1 as [|x l1 IH]; cbn [for_each app].
  - by rewrite outcome_bind, outcome_mret.
  - rewrite outcome_bind in IH. repeat rewrite outcome_bind.
    destruct (outcome (f x)) as [[]|]; [exact IH|done].
Qed.

Lemma sample_phase_outcome m :
  outcome (sample_phase m) = outcome (for_each (print_sample m) sampled).
Proof.
  unfold sample_phase, sampled, print. rewrite outcome_bind, outcome_emit.
  apply outcome_for_each_app.
Qed.

Lemma sample_phase_cases m :
  match outcome (sample_phase m) with
  | Ok _ => forall b p, b ∈ sampled -> m !! b = Some p -> p_uuid p <> None
  | Raise e =>
      e = TypeError
      /\ exists b p, b ∈ sampled /\ m !! b = Some p /\ p_uuid p = None
  end.
Proof.
  rewrite sample_phase_outcome.
  pose proof (for_each_outcome (print_sample m) sampled) as H.
  destruct (outcome (for_each (print_sample m) sampled)) as [[]|e].
  - intros b p Hb Hp Hu. rewrite Forall_forall in H. specialize (H b Hb).
    rewrite print_sample_outcome, Hp, Hu in H. done.
  - destruct H as (b & Hb & H). rewrite print_sample_outcome in H.
    destruct (m !! b) as [p|] eqn:Hp; [|done].
    destruct (p_uuid p) eqn:Hu; [done|]. injection H as <-.
    split; [done|]. by exists b, p.
Qed.

(** X9: the sample section ends normally exactly when every record
    held under one of the badges 1..5 and 413..417 has a uuid; else it
    raises [TypeError].  Records under other badges are not looked
    at. *)
Theorem sample_section_outcome :
  forall by_badge : gmap Z participant,
    (outcome (sample_phase by_badge) = Ok tt
     <-> forall b p, b ∈ sampled -> by_badge !! b = Some p -> p_uuid p <> None)
    /\ (outcome (sample_phase by_badge) = Raise TypeError
        <-> exists b p, b ∈ sampled /\ by_badge !! b = Some p /\ p_uuid p = None)
    /\ (forall b, b ∈ sampled <-> 1 <= b <= 5 \/ 413 <= b <= 417).
Proof.
  intros m. pose proof (sample_phase_cases m) as H.
  destruct (outcome (sample_phase m)) as [[]|e].
  - split; [done|]. split.
    + split; [done|]. intros (b & p & Hb & Hp & Hu). by destruct (H b p).
    + intros b. unfold sampled. rewrite elem_of_app, !elem_of_seqZ. lia.
  - destruct H as (-> & b & p & Hb & Hp & Hu). split.
    + split; [done|]. intros H. by destruct (H b p).
    + split; [split; [by exists b, p|done]|].
      intros b'. unfold sampled. rewrite elem_of_app, !elem_of_seqZ. lia.
Qed.

(** X10: a run that stops in the sample section has reported the
    record that stops it: the record lies in 1..5 or 413..417, the
    completeness check lists it with [uuid] among its missing fields,
    and the validity check flags its uuid. *)
Theorem sample_failure_was_reported :
  forall (by_badge : gmap Z participant) (e : exn),
    outcome (sample_phase by_badge) = Raise e ->
    exists b p,
      b ∈ sampled /\ by_badge !! b = Some p
      /\ lit "uuid" ∈ missing_fields_of p
      /\ (b, p_name p, missing_fields_of p) ∈ incomplete_of by_badge
      /\ flagged by_badge b p (lit "invalid UUID: None").
Proof.
  intros m e He. pose proof (sample_phase_cases m) as H. rewrite He in H.
  destruct H as (_ & b & p & Hb & Hp & Hu). exists b, p.
  assert (1 <= b <= 417) as Hin.
  { unfold sampled in Hb. rewrite elem_of_app, !elem_of_seqZ in Hb. lia. }
  assert (lit "uuid" ∈ missing_fields_of p) as Hf.
  { unfold missing_fields_of. rewrite Hu. cbn [truthy negb].
    rewrite !elem_of_app. right. left. by apply list_elem_of_singleton. }
  split; [done|]. split; [done|]. split; [done|]. split.
  - unfold incomplete_of. apply list_elem_of_omap. exists b.
    split; [by apply elem_of_cohort|]. rewrite Hp. cbv zeta.
    destruct (missing_fields_of p); [by apply not_elem_of_nil in Hf|done].
  - apply flagged_intro; [done|done|]. unfold issues_of. rewrite Hu.
    apply elem_of_app. left. by apply list_elem_of_singleton.
Qed.

(** A record without a uuid under badge 2. *)
Lemma sample_failure_was_reported_witness :
  exists b p,
    b ∈ sampled /\ ({[2 := badge_zero]} : gmap Z participant) !! b = Some p
    /\ lit "uuid" ∈ missing_fields_of p
    /\ (b, p_name p, missing_fields_of p) ∈ incomplete_of {[2 := badge_zero]}
    /\ flagged {[2 := badge_zero]} b p (lit "invalid UUID: None").
Proof.
  apply (sample_failure_was_reported {[2 := badge_zero]} TypeError).
  vm_compute. reflexivity.
Defined.

Lemma file_badges_of_ok_iff files :
  (exists l, file_badges_of files = Ok l)
  <-> Forall (fun f => file_badge f <> Raise ValueError) files.
Proof.
  induction files as [|f fs IH]; cbn [file_badges_of].
  - split; [constructor|by exists []].
  - rewrite Forall_cons, <- IH. unfold mbind, result_bind.
    destruct (file_badge f) as [b|e] eqn:E.
    + destruct (file_badges_of fs) as [rest|e'].
      * split; [|by eexists]. intros _. split; [done|by eexists].
      * split; [by intros [? ?]|by intros [_ [? ?]]].
    + split; [by intros [? ?]|]. intros [H _]. exfalso. apply H. f_equal.
      unfold file_badge in E. destruct (isdigit _); [|done].
      destruct (int_of_str (split_head "_" f)) as [n|e'] eqn:Ei; [done|].
      injection E as <-. by apply int_of_str_raises_value_error in Ei.
Qed.

Lemma file_phase_outcome dir :
  outcome (file_phase dir) =
    match dir with
    | None => Ok None
    | Some files => l ← file_badges_of files; Ok (Some (merge_sort Z.le l))
    end.
Proof.
  destruct dir as [files|]; [|done].
  unfold file_phase, verify_qr_code_files, print.
  rewrite outcome_bind, outcome_emit, outcome_bind, outcome_lift.
  destruct (file_badges_of files) as [l|e]; [|done].
  unfold mbind, result_bind, prog_bind. cbn beta iota.
  by destruct (negb (is_empty (missing_files_of (merge_sort Z.le l)))).
Qed.

(** X11: a run of [main] ends normally exactly when every token
    converts, every listed file name converts, no record sampled for
    display lacks a uuid and the report file can be written; it ends
    with [OSError] exactly when only the last of these fails, and it
    raises nothing but [ValueError], [TypeError] and [OSError]. *)
Theorem main_ends_normally_iff :
  forall (ps : list participant) (dir : option (list str)) (can_write : bool),
    (outcome (main ps dir can_write) = Ok tt
     <-> checks_pass ps dir /\ can_write = true)
    /\ (outcome (main ps dir can_write) = Raise OSError
        <-> checks_pass ps dir /\ can_write = false)
    /\ (forall e, outcome (main ps dir can_write) = Raise e ->
                  e = ValueError \/ e = TypeError \/ e = OSError).
Proof.
  intros ps dir can_write. set (checks_pass := checks_pass ps dir).
  assert (match index_by_badge ps with
          | Ok m =>
              match outcome (file_phase dir) with
              | Ok _ =>
                  match outcome (sample_phase m) with
                  | Ok _ => checks_pass
                  | Raise e => ~ checks_pass /\ e = TypeError
                  end
              | Raise e => ~ checks_pass /\ e = ValueError
              end
          | Raise e => ~ checks_pass /\ e = ValueError
          end) as H.
  { subst checks_pass. unfold checks_pass.
    destruct (index_by_badge ps) as [m|e] eqn:Hidx.
    2:{ split; [by intros (m & ? & _)|].
        apply Index.index_from_raises in Hidx as (p & _ & Hp).
        destruct (extract_badge_number_results (p_qrToken p)) as [(n & E)|[E|E]];
          congruence. }
    rewrite file_phase_outcome.
    assert (match dir with
            | Some files => l ← file_badges_of files; Ok (Some (merge_sort Z.le l))
            | None => Ok None
            end = Raise ValueError
            \/ ((exists fb, match dir with
                            | Some files =>
                                l ← file_badges_of files; Ok (Some (merge_sort Z.le l))
                            | None => Ok None
                            end = Ok fb)
                /\ forall files, dir = Some files ->
                     Forall (fun f => file_badge f <> Raise ValueError) files))
      as [Hf|[[fb Hf] Hfiles]].
    { destruct dir as [files|]; [|right; split; [by eexists|done]].
      destruct (file_badges_of files) as [l|e] eqn:E.
      - right. split; [by eexists|]. intros files' [= <-].
        apply file_badges_of_ok_iff. by exists l.
      - left. unfold mbind, result_bind.
        by rewrite (file_badges_of_raises_value_error files e E). }
    - rewrite Hf. split; [|done]. intros (m' & _ & Hfiles & _).
      destruct dir as [files|]; [|done].
      apply (file_badges_of_ok_iff files) in Hfiles as [l El]; [|done].
      by rewrite El in Hf.
    - rewrite Hf. pose proof (sample_phase_cases m) as Hs.
      destruct (outcome (sample_phase m)) as [[]|e].
      + by exists m.
      + destruct Hs as (-> & b & p & Hb & Hp & Hu). split; [|done].
        intros (m' & [= <-] & _ & Hs). by destruct (Hs b p). }
  rewrite main_outcome. unfold mbind, result_bind.
  destruct (index_by_badge ps) as [m|e].
  2:{ destruct H as [Hn ->]. split; [split; [done|by intros []]|].
      split; [split; [done|by intros []]|]. intros e [= <-]. by left. }
  destruct (outcome (file_phase dir)) as [fb|e].
  2:{ destruct H as [Hn ->]. split; [split; [done|by intros []]|].
      split; [split; [done|by intros []]|]. intros e [= <-]. by left. }
  destruct (outcome (sample_phase m)) as [[]|e].
  2:{ destruct H as [Hn ->]. split; [split; [done|by intros []]|].
      split; [split; [done|by intros []]|]. intros e [= <-]. right. by left. }
  destruct can_write.
  - split; [done|]. split; [split; [done|by intros []]|done].
  - split; [split; [done|by intros []]|]. split; [done|].
    intros e [= <-]. right. by right.
Qed.

Lemma cohort_counts {A} (has : Z -> bool) (g : Z -> option A) (l : list Z) :
  (forall b x, g b = Some x -> has b = true) ->
  (length (List.filter (fun i => negb (has i)) l) + length (omap g l) <= length l)%nat.
Proof.
  intros Hg. induction l as [|b l IH]; cbn [List.filter omap list_omap length]; [lia|].
  destruct (g b) as [x|] eqn:E.
  - rewrite (Hg b x E). cbn [negb length]. lia.
  - destruct (negb (has b)); cbn [length]; lia.
Qed.

Lemma cohort_length : length cohort = 417%nat.
Proof. unfold cohort. by rewrite length_seqZ. Qed.

(** X12: in the report of a run that reaches it, the participant
    count is the number of rows loaded, no badge is both missing and
    listed as incomplete or invalid, and the missing badges together
    with the entries of either list number at most 417. *)
Theorem report_lists_consistent :
  forall (ps : list participant) (dir : option (list str)) (r : report),
    outcome (run_checks ps dir) = Ok r ->
    total_participants r = length ps
    /\ (forall f, f ∈ incomplete_data r ++ invalid_data r ->
                  1 <= finding_badge f <= 417
                  /\ finding_badge f ∉ missing_badges r)
    /\ (length (missing_badges r) + length (incomplete_data r) <= 417)%nat
    /\ (length (missing_badges r) + length (invalid_data r) <= 417)%nat.
Proof.
  intros ps dir r. rewrite run_checks_outcome. unfold mbind, result_bind.
  destruct (index_by_badge ps) as [m|e]; [|done].
  destruct (outcome (file_phase dir)) as [fb|e]; [|done].
  destruct (outcome (sample_phase m)) as [[]|e]; [|done].
  rewrite summary_outcome. intros [= <-].
  cbn [total_participants incomplete_data invalid_data missing_badges].
  split; [done|]. split; [|split].
  - assert (forall b p, m !! b = Some p -> b ∉ missing_badges_of m) as Hnot.
    { intros b p Hp [_ Hb]%list_elem_of_In%filter_In.
      unfold has_badge in Hb. by rewrite Hp in Hb. }
    intros f [Hf|Hf]%elem_of_app.
    + apply elem_of_incomplete_of in Hf as (b & p & Hin & Hp & _ & ->).
      split; [done|]. by apply (Hnot b p).
    + apply elem_of_invalid_of in Hf as (b & p & Hin & Hp & _ & ->).
      split; [done|]. by apply (Hnot b p).
  - rewrite <- cohort_length. apply cohort_counts. intros b x.
    unfold has_badge. by destruct (m !! b).
  - rewrite <- cohort_length. apply cohort_counts. intros b x.
    unfold has_badge. by destruct (m !! b).
Qed.

(** A run on one record and no directory. *)
Lemma report_lists_consistent_witness :
  exists r,
    outcome (run_checks [valid_participant 5] None) = Ok r
    /\ total_participants r = 1%nat
    /\ (length (missing_badges r) + length (invalid_data r) <= 417)%nat.
Proof.
  destruct (outcome (run_checks [valid_participant 5] None)) as [r|e] eqn:E;
    [|vm_compute in E; discriminate].
  exists r. split; [done|].
  destruct (report_lists_consistent [valid_participant 5] None r E)
    as (Ht & _ & _ & Hl).
  split; [exact Ht|exact Hl].
Defined.

End RunOutcomes.


(* ===================================================================== *)
(** * The comparison of the roster with the database *)
(* ===================================================================== *)

Section RosterComparison.
Import VerifyFinal Runs FinalRuns.
Variable f : str -> option Z.

Lemma badge_of_raises v e : badge_of v = Raise e -> e = ValueError.
Proof.
  destruct v as [| |n|s]; try done. cbn [badge_of]. unfold mbind, result_bind.
  destruct (int_of_str s) as [n|e'] eqn:E; [done|]. intros [= <-].
  by apply int_of_str_raises_value_error in E.
Qed.

Lemma compare_row_cases m r ds k :
  match badge_of (r_badge r) with
  | Ok None => compare_row f m r (ds, k) = Ok (ds, k) /\ row_entry f m r = None
  | Ok (Some b) =>
      match m !! b with
      | None =>
          exists d,
            compare_row f m r (ds, k) = Ok (ds ++ [d], k)
            /\ row_entry f m r = Some d
            /\ d_badge d = b /\ d_issue d = MISSING_IN_DB /\ d_db_name d = None
            /\ d_excel_name d = stripped_or_empty (r_name r)
      | Some p =>
          if is_empty (field_issues f r p)
          then compare_row f m r (ds, k) = Ok (ds, S k) /\ row_entry f m r = None
          else exists d,
              compare_row f m r (ds, k) = Ok (ds ++ [d], k)
              /\ row_entry f m r = Some d
              /\ d_badge d = b /\ d_issue d = DATA_MISMATCH
              /\ d_db_name d = Some (db_stripped_or_empty (p_name p))
              /\ d_excel_name d = stripped_or_empty (r_name r)
              /\ d_details d = join (lit "; ") (field_issues f r p)
      end
  | Raise e => compare_row f m r (ds, k) = Raise e
  end.
Proof.
  unfold row_entry, compare_row.
  destruct (badge_of (r_badge r)) as [[b|]|e]; unfold mbind, result_bind;
    [|done|done].
  destruct (m !! b) as [p|].
  - destruct (is_empty (field_issues f r p)); cbn [negb]; [done|].
    eexists. repeat split.
  - eexists. repeat split.
Qed.

Lemma compare_rows_entries m rows ds k :
  match compare_rows f m rows (ds, k) with
  | Ok (ds', k') =>
      ds' = ds ++ omap (row_entry f m) rows
      /\ (length ds' + k' = length ds + k + length (omap row_badge rows))%nat
      /\ Forall (fun r => badge_of (r_badge r) <> Raise ValueError) rows
  | Raise e =>
      e = ValueError
      /\ Exists (fun r => badge_of (r_badge r) = Raise ValueError) rows
  end.
Proof.
  revert ds k. induction rows as [|r rows IH]; intros ds k;
    cbn [compare_rows omap list_omap].
  - rewrite app_nil_r. split; [done|]. split; [cbn; lia|constructor].
  - pose proof (compare_row_cases m r ds k) as H. unfold row_badge at 1.
    destruct (badge_of (r_badge r)) as [[b|]|e] eqn:Eb.
    + destruct (m !! b) as [p|].
      * destruct (is_empty (field_issues f r p)).
        -- destruct H as [-> ->]. unfold mbind, result_bind. specialize (IH ds (S k)).
           destruct (compare_rows f m rows (ds, S k)) as [[ds' k']|e].
           ++ destruct IH as (-> & Hlen & Hall). split; [done|].
              split; [cbn [length]; lia|]. constructor; [by rewrite Eb|done].
           ++ destruct IH as [-> Hex]. split; [done|by right].
        -- destruct H as (d & -> & -> & _). unfold mbind, result_bind.
           specialize (IH (ds ++ [d]) k).
           destruct (compare_rows f m rows (ds ++ [d], k)) as [[ds' k']|e].
           ++ destruct IH as (-> & Hlen & Hall). split; [by rewrite <- app_assoc|].
              rewrite !length_app in Hlen |- *. cbn [length] in Hlen |- *.
              split; [lia|]. constructor; [by rewrite Eb|done].
           ++ destruct IH as [-> Hex]. split; [done|by right].
      * destruct H as (d & -> & -> & _). unfold mbind, result_bind.
        specialize (IH (ds ++ [d]) k).
        destruct (compare_rows f m rows (ds ++ [d], k)) as [[ds' k']|e].
        -- destruct IH as (-> & Hlen & Hall). split; [by rewrite <- app_assoc|].
           rewrite !length_app in Hlen |- *. cbn [length] in Hlen |- *.
           split; [lia|]. constructor; [by rewrite Eb|done].
        -- destruct IH as [-> Hex]. split; [done|by right].
    + destruct H as [-> ->]. unfold mbind, result_bind. specialize (IH ds k).
      destruct (compare_rows f m rows (ds, k)) as [[ds' k']|e].
      * destruct IH as (-> & Hlen & Hall). split; [done|].
        split; [lia|]. constructor; [by rewrite Eb|done].
      * destruct IH as [-> Hex]. split; [done|by right].
    + rewrite H. unfold mbind, result_bind.
      pose proof (badge_of_raises _ _ Eb) as ->. split; [done|by left].
Qed.

Lemma run_compare_ok_inv rows db ds r :
  outcome (run_compare f rows db) = Ok (ds, r) ->
  exists k,
    outcome (compare_data f rows db) = Ok (ds, k)
    /\ r = {| total_excel_records := length rows;
              total_db_records := length db;
              matches := k;
              discrepancies_count := length ds;
              discrepancies := ds |}.
Proof.
  destruct (outcome (compare_data f rows db)) as [[ds' k]|e] eqn:E.
  - rewrite (run_compare_reached f rows db ds' k E). cbn [outcome snd].
    intros [= <- <-]. by exists k.
  - by rewrite (run_compare_raise f rows db e E).
Qed.

End RosterComparison.

(** X13: in the report of a comparison that reaches it, the two
    totals are the numbers of rows loaded, the discrepancy count is
    the length of the discrepancy list, and matches and discrepancies
    together number the roster rows that have a badge: each such row
    is counted once, as a match or as a discrepancy, and rows without
    a badge are not counted. *)
Theorem comparison_counts_rows_with_badge :
  forall (f : str -> option Z) (rows : list VerifyFinal.row)
         (db : list participant) ds r,
    outcome (VerifyFinal.run_compare f rows db) = Ok (ds, r) ->
    VerifyFinal.discrepancies r = ds
    /\ VerifyFinal.discrepancies_count r = length ds
    /\ VerifyFinal.total_excel_records r = length rows
    /\ VerifyFinal.total_db_records r = length db
    /\ (VerifyFinal.matches r + VerifyFinal.discrepancies_count r
        = length (omap row_badge rows))%nat
    /\ (VerifyFinal.matches r + VerifyFinal.discrepancies_count r
        <= VerifyFinal.total_excel_records r)%nat.
Proof.
  intros f rows db ds r (k & H & ->)%run_compare_ok_inv.
  cbn [VerifyFinal.discrepancies VerifyFinal.discrepancies_count
       VerifyFinal.total_excel_records VerifyFinal.total_db_records
       VerifyFinal.matches].
  rewrite FinalRuns.compare_data_outcome in H.
  destruct (index_by_badge db) as [m|e]; [|done]. unfold mbind, result_bind in H.
  pose proof (compare_rows_entries f m rows [] O) as Hc. rewrite H in Hc.
  destruct Hc as (_ & Hlen & _). cbn [length] in Hlen.
  assert (length (omap row_badge rows) <= length rows)%nat.
  { clear. induction rows as [|r rows IH]; cbn [omap list_omap length]; [lia|].
    destruct (row_badge r); cbn [length]; lia. }
  repeat split; lia.
Qed.

(** A roster of one row with a badge and one without, against an
    empty database. *)
Lemma comparison_counts_rows_with_badge_witness :
  exists ds r,
    outcome (VerifyFinal.run_compare no_age
               [roster_row (VerifyFinal.Str (lit "A")) 1;
                {| VerifyFinal.r_name := VerifyFinal.Str (lit "B");
                   VerifyFinal.r_badge := VerifyFinal.NaN;
                   VerifyFinal.r_age := VerifyFinal.NaN;
                   VerifyFinal.r_blood := VerifyFinal.NaN;
                   VerifyFinal.r_emergency := VerifyFinal.NaN;
                   VerifyFinal.r_photo := None |}] []) = Ok (ds, r)
    /\ (VerifyFinal.matches r + VerifyFinal.discrepancies_count r = 1)%nat.
Proof.
  destruct (outcome (VerifyFinal.run_compare no_age
               [roster_row (VerifyFinal.Str (lit "A")) 1;
                {| VerifyFinal.r_name := VerifyFinal.Str (lit "B");
                   VerifyFinal.r_badge := VerifyFinal.NaN;
                   VerifyFinal.r_age := VerifyFinal.NaN;
                   VerifyFinal.r_blood := VerifyFinal.NaN;
                   VerifyFinal.r_emergency := VerifyFinal.NaN;
                   VerifyFinal.r_photo := None |}] []))
    as [[ds r]|e] eqn:E; [|vm_compute in E; discriminate].
  exists ds, r. split; [done|].
  exact (proj1 (proj2 (proj2 (proj2 (proj2
           (comparison_counts_rows_with_badge no_age _ [] ds r E)))))).
Defined.

(** [compare_data] on a sheet: the index, then the column lookups,
    then the rows. *)
Lemma compare_data_frame_outcome f df db :
  outcome (VerifyFinal.compare_data_frame f df db) =
    (m ← index_by_badge db;
     if (length (VerifyFinal.columns df) <? 5)%nat then Raise IndexError
     else VerifyFinal.compare_rows f m (VerifyFinal.rows_of df) ([], O)).
Proof.
  unfold VerifyFinal.compare_data_frame, VerifyFinal.rows_of.
  destruct (index_by_badge db) as [m|e]; [|done].
  destruct (VerifyFinal.columns df) as [|c0 [|c1 [|c2 [|c3 [|c4 rest]]]]];
    try done.
Qed.

Lemma compare_data_frame_rows f df db :
  (5 <= length (VerifyFinal.columns df))%nat ->
  VerifyFinal.compare_data_frame f df db
  = VerifyFinal.compare_data f (VerifyFinal.rows_of df) db.
Proof.
  unfold VerifyFinal.compare_data_frame, VerifyFinal.compare_data,
    VerifyFinal.rows_of.
  destruct (VerifyFinal.columns df) as [|c0 [|c1 [|c2 [|c3 [|c4 rest]]]]];
    cbn [length]; try lia.
  intros _. by destruct (index_by_badge db).
Qed.

Lemma rows_of_badge_cells (P : VerifyFinal.value -> Prop) df :
  Forall (fun r => P (VerifyFinal.r_badge r)) (VerifyFinal.rows_of df)
  <-> Forall (fun r => P (VerifyFinal.cell r 1)) (VerifyFinal.cells df).
Proof.
  unfold VerifyFinal.rows_of.
  generalize (VerifyFinal.photo_column (VerifyFinal.columns df)). intros pc.
  induction (VerifyFinal.cells df) as [|r rs IH]; cbn [map]; [done|].
  by rewrite !Forall_cons, IH.
Qed.



(** X15: every entry of the discrepancy list comes from a roster row
    with that badge and carries the row's stripped name; it is
    [MISSING_IN_DB] without a database name exactly when the index
    has no record under the badge, and else [DATA_MISMATCH] with the
    record's name and the joined messages of a non-empty comparison.
    Every roster row whose badge the index lacks has such an entry. *)
Theorem discrepancies_come_from_rows :
  forall (f : str -> option Z) (rows : list VerifyFinal.row)
         (db : list participant) ds k,
    outcome (VerifyFinal.compare_data f rows db) = Ok (ds, k) ->
    exists by_badge,
      index_by_badge db = Ok by_badge
      /\ (forall d, d ∈ ds ->
            exists r,
              r ∈ rows /\ row_badge r = Some (VerifyFinal.d_badge d)
              /\ VerifyFinal.d_excel_name d
                 = VerifyFinal.stripped_or_empty (VerifyFinal.r_name r)
              /\ match by_badge !! VerifyFinal.d_badge d with
                 | None =>
                     VerifyFinal.d_issue d = VerifyFinal.MISSING_IN_DB
                     /\ VerifyFinal.d_db_name d = None
                 | Some p =>
                     VerifyFinal.d_issue d = VerifyFinal.DATA_MISMATCH
                     /\ VerifyFinal.d_db_name d
                        = Some (VerifyFinal.db_stripped_or_empty (p_name p))
                     /\ VerifyFinal.field_issues f r p <> []
                     /\ VerifyFinal.d_details d
                        = join (lit "; ") (VerifyFinal.field_issues f r p)
                 end)
      /\ (forall r b, r ∈ rows -> row_badge r = Some b -> by_badge !! b = None ->
                      exists d, d ∈ ds /\ VerifyFinal.d_badge d = b
                                /\ VerifyFinal.d_issue d = VerifyFinal.MISSING_IN_DB).
Proof.
  intros f rows db ds k. rewrite FinalRuns.compare_data_outcome.
  destruct (index_by_badge db) as [m|e]; [|done]. unfold mbind, result_bind.
  intros H. exists m. split; [done|].
  pose proof (compare_rows_entries f m rows [] O) as Hc. rewrite H in Hc.
  destruct Hc as (-> & _ & Hall). cbn [app]. rewrite Forall_forall in Hall. split.
  - intros d (r & Hr & Hd)%list_elem_of_omap. exists r. split; [done|].
    pose proof (compare_row_cases f m r [] O) as Hcase. unfold row_badge.
    destruct (VerifyFinal.badge_of (VerifyFinal.r_badge r)) as [[b|]|e].
    + destruct (m !! b) as [p|] eqn:Hb.
      * destruct (is_empty (VerifyFinal.field_issues f r p)) eqn:Ei.
        { destruct Hcase as [_ Hn]. by rewrite Hn in Hd. }
        destruct Hcase as (d' & _ & Hd' & <- & ? & ? & ? & ?).
        rewrite Hd' in Hd. injection Hd as ->. rewrite Hb.
        split; [done|]. split; [done|]. split; [done|]. split; [done|].
        split; [|done]. intros Hnil. by rewrite Hnil in Ei.
      * destruct Hcase as (d' & _ & Hd' & <- & ? & ? & ?).
        rewrite Hd' in Hd. injection Hd as ->. rewrite Hb. done.
    + destruct Hcase as [_ Hn]. by rewrite Hn in Hd.
    + unfold row_entry in Hd. by rewrite Hcase in Hd.
  - intros r b Hr Hb Hnone.
    pose proof (compare_row_cases f m r [] O) as Hcase. unfold row_badge in Hb.
    destruct (VerifyFinal.badge_of (VerifyFinal.r_badge r)) as [[b'|]|e]; [|done|done].
    injection Hb as ->. rewrite Hnone in Hcase.
    destruct Hcase as (d & _ & Hd & ? & ? & _). exists d.
    split; [|done]. apply list_elem_of_omap. by exists r.
Qed.

(** A row for badge 1 against an empty database. *)
Lemma discrepancies_come_from_rows_witness :
  exists ds k by_badge,
    outcome (VerifyFinal.compare_data no_age
               [roster_row (VerifyFinal.Str (lit "A")) 1] []) = Ok (ds, k)
    /\ index_by_badge [] = Ok by_badge
    /\ (forall r b, r ∈ [roster_row (VerifyFinal.Str (lit "A")) 1] ->
                    row_badge r = Some b -> by_badge !! b = None ->
                    exists d, d ∈ ds /\ VerifyFinal.d_badge d = b
                              /\ VerifyFinal.d_issue d = VerifyFinal.MISSING_IN_DB).
Proof.
  destruct (outcome (VerifyFinal.compare_data no_age
                       [roster_row (VerifyFinal.Str (lit "A")) 1] []))
    as [[ds k]|e] eqn:E; [|vm_compute in E; discriminate].
  destruct (discrepancies_come_from_rows no_age _ _ ds k E) as (m & Hm & _ & H).
  by exists ds, k, m.
Defined.

(* ===================================================================== *)
(** * What the text cleaning achieves *)
(* ===================================================================== *)

Section TextCleaning.
Import VerifyFinal PyFacts IntFacts.

Lemma replace_app_absent_head c p new a s :
  Forall (fun x => eqc c x = false) a ->
  replace (c :: p) new (a ++ s) = a ++ replace (c :: p) new s.
Proof.
  induction 1 as [|x a Hx _ IH]; [done|]. cbn [app]. rewrite replace_cons.
  cbn [startswith]. rewrite Hx. cbn [andb]. by rewrite IH.
Qed.

Lemma replace_at_head old s : old <> [] -> replace old [] (old ++ s) = replace old [] s.
Proof.
  destruct old as [|c p]; [done|]. intros _. cbn [app]. rewrite replace_cons.
  change (c :: p ++ s) with ((c :: p) ++ s). rewrite startswith_app.
  cbn [length Nat.pred app]. by rewrite drop_app_length.
Qed.

Lemma contains_app_r p a s : contains p s = true -> contains p (a ++ s) = true.
Proof.
  intros H. induction a as [|x a IH]; [done|]. cbn [app contains].
  rewrite IH. apply orb_true_r.
Qed.

(** X16: [extract_badge_number] does not look at where the prefix
    stands: for a token that holds it once, after text without a
    capital P, the number is read from what stands before the prefix
    followed by what stands after it. *)
Theorem prefix_is_deleted_anywhere :
  forall a b : str,
    Forall (fun x => eqc "P" x = false) a ->
    contains PREFIX b = false ->
    extract_badge_number (Some (a ++ PREFIX ++ b))
    = (n ← int_of_str (a ++ b); Ok (Some n)).
Proof.
  intros a b Ha Hb. unfold extract_badge_number.
  assert (truthy (Some (a ++ PREFIX ++ b)) = true) as ->.
  { destruct a; [|done]. change PREFIX with ("P"%char :: lit "ALITANA_YATRA_"). done. }
  rewrite contains_app_r by apply contains_app. cbn [andb].
  change PREFIX with ("P"%char :: lit "ALITANA_YATRA_") at 1.
  rewrite replace_app_absent_head by done.
  change ("P"%char :: lit "ALITANA_YATRA_") with PREFIX.
  rewrite replace_at_head by done. by rewrite replace_absent.
Qed.

(** The token [1PALITANA_YATRA_2] gives badge 12. *)
Lemma prefix_is_deleted_anywhere_witness :
  extract_badge_number (Some (lit "1" ++ PREFIX ++ lit "2")) = Ok (Some 12).
Proof.
  eapply eq_trans.
  - apply (prefix_is_deleted_anywhere (lit "1") (lit "2")).
    + by repeat constructor.
    + vm_compute. reflexivity.
  - vm_compute. reflexivity.
Defined.

Lemma filter_lstrip_by (keep sp : ascii -> bool) s :
  Forall (fun c => sp c = true -> keep c = false) s ->
  List.filter keep (lstrip_by sp s) = List.filter keep s.
Proof.
  induction 1 as [|c s Hc _ IH]; [done|]. cbn [lstrip_by].
  destruct (sp c) eqn:E; [|done]. cbn [List.filter]. by rewrite (Hc eq_refl).
Qed.

Lemma filter_rstrip_by (keep sp : ascii -> bool) s :
  Forall (fun c => sp c = true -> keep c = false) s ->
  List.filter keep (rstrip_by sp s) = List.filter keep s.
Proof.
  induction 1 as [|c s Hc _ IH]; [done|]. rewrite rstrip_by_cons.
  destruct (rstrip_by sp s) as [|x t] eqn:Er; cbn [is_empty andb].
  - destruct (sp c) eqn:E.
    + cbn [List.filter]. by rewrite (Hc eq_refl), <- IH.
    + cbn [List.filter]. by rewrite <- IH.
  - cbn [List.filter] in IH |- *. by rewrite IH.
Qed.

Lemma filter_strip (keep : ascii -> bool) s :
  Forall (fun c => isspace c = true -> keep c = false) s ->
  List.filter keep (strip s) = List.filter keep s.
Proof.
  intros H. unfold strip, strip_by. rewrite filter_rstrip_by.
  - by apply filter_lstrip_by.
  - clear -H. induction H as [|c s Hc Hs IH]; [constructor|]. cbn [lstrip_by].
    destruct (isspace c) eqn:E; [done|]. constructor; [|done].
    intros E'. by rewrite E in E'.
Qed.

(** The text of a phone cell after its spaces and hyphens are
    deleted. *)
Lemma phone_separators_deleted s :
  Forall (fun c => isspace c = true -> c = " "%char) s ->
  replace (lit "-") [] (replace (lit " ") [] (strip s))
  = List.filter (fun c => negb (eqc "-" c))
      (List.filter (fun c => negb (eqc " " c)) s).
Proof.
  intros H. change (lit "-") with ["-"%char]. change (lit " ") with [" "%char].
  rewrite !replace_delete_char, filter_strip; [done|].
  eapply Forall_impl; [exact H|]. intros c Hc Hs. by rewrite (Hc Hs).
Qed.

Lemma phone_chars_digits s :
  Forall (fun c => is_digit c = true \/ c = " "%char \/ c = "-"%char) s ->
  List.filter (fun c => negb (eqc "-" c))
    (List.filter (fun c => negb (eqc " " c)) s)
  = List.filter is_digit s
  /\ Forall (fun c => isspace c = true -> c = " "%char) s
  /\ Forall (fun x => eqc "+" x = false) (List.filter is_digit s).
Proof.
  induction 1 as [|c s Hc _ (IH1 & IH2 & IH3)]; [by repeat split|].
  assert (isspace c = true -> c = " "%char) as Hsp.
  { destruct Hc as [Hc|[->| ->]]; [|done|done]. revert Hc. by_cases_on_char c. }
  split; [|split; [by constructor|]].
  - destruct Hc as [Hc|[->| ->]]; [|by cbn|by cbn].
    assert (negb (eqc " " c) = true /\ negb (eqc "-" c) = true) as [H1 H2].
    { revert Hc. by_cases_on_char c. }
    cbn [List.filter]. rewrite H1, Hc. cbn [List.filter]. by rewrite H2, IH1.
  - cbn [List.filter]. destruct (is_digit c) eqn:E; [|done]. constructor; [|done].
    revert E. by_cases_on_char c.
Qed.

(** X17: for a phone text made of digits, spaces and hyphens,
    [normalize_phone] gives the last ten of its digits, and the same
    when the text is preceded by [+91]; so two such texts with the
    same digits never give an emergency-contact mismatch. *)
Theorem normalize_phone_keeps_last_digits :
  forall s : str,
    Forall (fun c => is_digit c = true \/ c = " "%char \/ c = "-"%char) s ->
    normalize_phone (Str s) = last_n 10 (List.filter is_digit s)
    /\ normalize_phone (Str (lit "+91" ++ s)) = last_n 10 (List.filter is_digit s)
    /\ emergency_issues (normalize_phone (Str (lit "+91" ++ s)))
         (normalize_phone (Str s)) = [].
Proof.
  intros s Hs. destruct (phone_chars_digits s Hs) as (Hf & Hsp & Hplus).
  assert (normalize_phone (Str s) = last_n 10 (List.filter is_digit s)) as H1.
  { unfold normalize_phone. cbn [isna str_of].
    rewrite phone_separators_deleted, Hf by done.
    change (lit "+91") with ("+"%char :: lit "91").
    by rewrite replace_absent by by apply contains_absent_head. }
  assert (normalize_phone (Str (lit "+91" ++ s))
          = last_n 10 (List.filter is_digit s)) as H2.
  { unfold normalize_phone. cbn [isna str_of].
    rewrite phone_separators_deleted.
    2:{ apply Forall_app. split; [by repeat constructor|done]. }
    rewrite !List.filter_app, Hf.
    change (List.filter (fun c => negb (eqc "-" c))
              (List.filter (fun c => negb (eqc " " c)) (lit "+91")))
      with (lit "+91").
    rewrite replace_at_head by done.
    change (lit "+91") with ("+"%char :: lit "91").
    by rewrite replace_absent by by apply contains_absent_head. }
  split; [done|]. split; [done|]. rewrite H1, H2. unfold emergency_issues.
  by rewrite bool_decide_true.
Qed.

(** The text [+91 98765-43210]. *)
Lemma normalize_phone_keeps_last_digits_witness :
  normalize_phone (Str (lit "+91" ++ lit " 98765-43210")) = lit "9876543210".
Proof.
  eapply eq_trans.
  - apply (normalize_phone_keeps_last_digits (lit " 98765-43210")).
    repeat constructor; (by left) || (by right; left) || (by right; right).
  - vm_compute. reflexivity.
Defined.

Lemma rstrip_by_app sp a t :
  rstrip_by sp (a ++ t) =
    if is_empty (rstrip_by sp t) then rstrip_by sp a else a ++ rstrip_by sp t.
Proof.
  induction a as [|c a IH]; cbn [app].
  - by destruct (rstrip_by sp t).
  - rewrite !rstrip_by_cons, IH. destruct (rstrip_by sp t) as [|x u]; [done|].
    cbn [is_empty]. by destruct a.
Qed.

Lemma digit_not_space c : digit c -> isspace c = false.
Proof. unfold digit. by_cases_on_char c. Qed.

Lemma digits_strip_app ds u :
  Forall digit ds -> ds <> [] -> strip (ds ++ u) = ds ++ rstrip_by isspace u.
Proof.
  intros Hds Hne. unfold strip, strip_by.
  assert (lstrip_by isspace (ds ++ u) = ds ++ u) as ->.
  { destruct Hds as [|c ds Hc _]; [done|]. cbn [app lstrip_by].
    by rewrite (digit_not_space c Hc). }
  rewrite rstrip_by_app.
  destruct (rstrip_by isspace u) as [|x t]; [|done]. cbn [is_empty].
  rewrite app_nil_r. apply strip_by_fixed_split, strip_by_fixed_no_space.
  eapply Forall_impl; [exact Hds|]. apply digit_not_space.
Qed.

(** The text that [int(float(...))] receives for an age cell that
    starts with digits. *)
Lemma excel_age_of_digits (f : str -> option Z) ds u :
  Forall digit ds -> ds <> [] ->
  excel_age_of f (Str (ds ++ u))
  = f (ds ++ rstrip_by isspace
               (replace (lit "year") []
                  (replace (lit "years") [] (rstrip_by isspace (lower u))))).
Proof.
  intros Hds Hne. unfold excel_age_of. cbn [isna str_of].
  assert (Forall (fun x => eqc "y" x = false) ds) as Hy.
  { eapply Forall_impl; [exact Hds|]. intros c. unfold digit. by_cases_on_char c. }
  rewrite digits_strip_app by done. unfold lower. rewrite map_app.
  rewrite (map_fixed lower_char ds).
  2:{ eapply Forall_impl; [exact Hds|]. intros c. unfold digit. by_cases_on_char c. }
  rewrite <- rstrip_by_map by apply isspace_lower_char.
  change (lit "years") with ("y"%char :: lit "ears").
  rewrite replace_app_absent_head by done.
  change (lit "year") with ("y"%char :: lit "ear").
  rewrite replace_app_absent_head by done.
  by rewrite digits_strip_app.
Qed.

(** X18: an age cell that holds digits alone, or digits followed by
    [years] or [year] in any letter case, with or without a space
    in between, is handed to the number conversion as the digits
    alone. *)
Theorem excel_age_unit_is_dropped :
  forall (f : str -> option Z) (ds unit : str),
    Forall digit ds -> ds <> [] ->
    lower unit = lit "years" \/ lower unit = lit "year" ->
    excel_age_of f (Str ds) = f ds
    /\ excel_age_of f (Str (ds ++ unit)) = f ds
    /\ excel_age_of f (Str (ds ++ " "%char :: unit)) = f ds.
Proof.
  intros f ds unit Hds Hne Hunit.
  assert (forall u t,
             lower u = t ->
             rstrip_by isspace
               (replace (lit "year") []
                  (replace (lit "years") [] (rstrip_by isspace t))) = [] ->
             excel_age_of f (Str (ds ++ u)) = f ds) as H.
  { intros u t <- Ht. by rewrite excel_age_of_digits, Ht, app_nil_r. }
  split; [|split].
  - rewrite <- (app_nil_r ds) at 1. by apply (H [] []).
  - destruct Hunit as [Hu|Hu]; by apply (H unit _ Hu).
  - destruct Hunit as [Hu|Hu].
    + apply (H (" "%char :: unit) (" "%char :: lit "years")); [|done].
      cbn [lower map]. f_equal. exact Hu.
    + apply (H (" "%char :: unit) (" "%char :: lit "year")); [|done].
      cbn [lower map]. f_equal. exact Hu.
Qed.

(** The cell [16 Years], with the conversion of [int] standing in
    for the conversion through a float. *)
Lemma excel_age_unit_is_dropped_witness :
  excel_age_of (fun s => match int_of_str s with Ok n => Some n | Raise _ => None end)
    (Str (lit "16" ++ " "%char :: lit "Years")) = Some 16.
Proof.
  eapply eq_trans.
  - apply (excel_age_unit_is_dropped _ (lit "16") (lit "Years")).
    + by repeat constructor.
    + done.
    + by left.
  - vm_compute. reflexivity.
Defined.

End TextCleaning.
